(** * resQ: disaster-report backend

    A shallow embedding of the two Express servers of the repository:

    - [backend/server.js], the variant that asks a prediction service for
      labels and derives an urgency level ([PredictionServer] below);
    - the variant with a [status] column and an admin route to update it
      ([StatusServer] below).

    The report store is the text of [reports.csv]; the user directory is the
    in-memory array [users].  Every handler is a function from the state it
    reads to the response it sends and the state it leaves behind.

    What the model takes for granted:

    - requests are served one at a time, and [reports.csv] can be read and
      written (it exists once the server has started);
    - the values of a request (form fields, JSON fields, the route
      parameter) are strings, and so are the labels of the prediction
      service; the password of a signup may be missing or not be a string;
    - the file is seen as the text [readFileSync(.., "utf8")] returns; the
      row that is appended to the file is appended to that text (the values
      of a form were decoded from the bytes of the request, and the labels
      are taken to be texts of that kind); the text that [writeFileSync]
      writes is stored as UTF-8 and comes back with every surrogate that
      is not part of a pair replaced by U+FFFD;
    - numbers are not computed with: a number is kept as the expression the
      source builds it with ([Number(..)], [parseFloat(..)], a length);
    - the SHA-256 digest is a function on strings about which nothing is
      assumed. *)

From Stdlib Require Import NArith Ascii String DecimalNat Sorted.
From stdpp Require Import gmap strings list fin_maps.

(** ** JavaScript strings and the few built-ins the servers call *)

Module Js.

(** A string is its sequence of UTF-16 code units. *)
Abbreviation jsstring := (list N).

(** A string literal of the source. *)
Definition lit (s : string) : jsstring :=
  (λ a, N_of_ascii a) <$> list_ascii_of_string s.

Definition LF : N := 10%N.
Definition COMMA : N := 44%N.

(** [a === b] on two strings. *)
Definition str_eqb (a b : jsstring) : bool := bool_decide (a = b).

(** WhiteSpace and LineTerminator code units, the ones [trim] strips. *)
Definition is_whitespace (c : N) : bool :=
  bool_decide (c ∈ [9; 10; 11; 12; 13; 32; 160; 5760;
                    8192; 8193; 8194; 8195; 8196; 8197; 8198; 8199; 8200;
                    8201; 8202; 8232; 8233; 8239; 8287; 12288; 65279]%N).

Fixpoint trimStart (s : jsstring) : jsstring :=
  match s with
  | c :: s' => if is_whitespace c then trimStart s' else s
  | [] => []
  end.

Definition trimEnd (s : jsstring) : jsstring := rev (trimStart (rev s)).

Definition trim (s : jsstring) : jsstring := trimEnd (trimStart s).

(** [s.split(sep)] for a separator of one code unit; the result is never
    empty: the empty string splits into one empty piece. *)
Fixpoint split (sep : N) (s : jsstring) : list jsstring :=
  match s with
  | [] => [[]]
  | c :: s' =>
      if N.eqb c sep then [] :: split sep s'
      else match split sep s' with
           | piece :: pieces => (c :: piece) :: pieces
           | [] => [[c]]
           end
  end.

(** [arr.join(sep)]. *)
Fixpoint join (sep : jsstring) (arr : list jsstring) : jsstring :=
  match arr with
  | [] => []
  | [x] => x
  | x :: rest => x ++ sep ++ join sep rest
  end.

(** [s.startsWith(prefix)]. *)
Fixpoint startsWith (prefix s : jsstring) : bool :=
  match prefix, s with
  | [], _ => true
  | p :: prefix', c :: s' => N.eqb p c && startsWith prefix' s'
  | _ :: _, [] => false
  end.

(** [arr[i] = v] on an array of strings.  Past the end JavaScript grows
    the array and leaves holes, which [join] prints as empty strings. *)
Definition array_set (arr : list jsstring) (i : nat) (v : jsstring)
  : list jsstring :=
  if decide (i < length arr) then <[i := v]> arr
  else arr ++ replicate (i - length arr) [] ++ [v].

(** Surrogate code units.  A file holds UTF-8: a surrogate that is not
    part of a pair is stored as U+FFFD, so that a text which is written
    to a file comes back, when the file is read, as [toWellFormed] of
    it. *)
Definition is_high_surrogate (c : N) : bool :=
  (55296 <=? c)%N && (c <=? 56319)%N.

Definition is_low_surrogate (c : N) : bool :=
  (56320 <=? c)%N && (c <=? 57343)%N.

Definition is_surrogate (c : N) : bool :=
  is_high_surrogate c || is_low_surrogate c.

Definition REPLACEMENT : N := 65533%N.

Fixpoint toWellFormed (s : jsstring) : jsstring :=
  match s with
  | [] => []
  | c :: rest =>
      if is_high_surrogate c then
        match rest with
        | d :: rest' =>
            if is_low_surrogate d then c :: d :: toWellFormed rest'
            else REPLACEMENT :: toWellFormed rest
        | [] => [REPLACEMENT]
        end
      else if is_low_surrogate c then REPLACEMENT :: toWellFormed rest
      else c :: toWellFormed rest
  end.

(** The text of a file after [fs.writeFileSync(file, data)], as
    [fs.readFileSync(file, "utf8")] returns it. *)
Definition writeFileSync (data : jsstring) : jsstring := toWellFormed data.

(** A text without a surrogate outside a pair: every text that is read
    from a file is one. *)
Definition well_formed (s : jsstring) : Prop := toWellFormed s = s.

(** The decimal digits of an array length, as a template literal
    prints it. *)
Fixpoint digits (d : Decimal.uint) : jsstring :=
  match d with
  | Decimal.Nil => []
  | Decimal.D0 d => 48%N :: digits d
  | Decimal.D1 d => 49%N :: digits d
  | Decimal.D2 d => 50%N :: digits d
  | Decimal.D3 d => 51%N :: digits d
  | Decimal.D4 d => 52%N :: digits d
  | Decimal.D5 d => 53%N :: digits d
  | Decimal.D6 d => 54%N :: digits d
  | Decimal.D7 d => 55%N :: digits d
  | Decimal.D8 d => 56%N :: digits d
  | Decimal.D9 d => 57%N :: digits d
  end.

Definition toString (n : nat) : jsstring := digits (Nat.to_uint n).

(** Numbers are kept as the expression that produces them: the servers
    never compute with a number, they only convert and pass it on. *)
Inductive jsnumber : Type :=
| Int (n : nat)                    (* an array length, or the literal 0.0 *)
| Number (x : option jsstring)     (* Number(x); None is undefined *)
| parseFloat (s : jsstring).

Inductive jsval : Type :=
| VUndefined
| VString (s : jsstring)
| VNumber (n : jsnumber).

(** The value of [row[index]], a string or undefined. *)
Definition cell (x : option jsstring) : jsval :=
  match x with
  | Some s => VString s
  | None => VUndefined
  end.

(** A flat object literal. *)
Abbreviation jsobject := (gmap (list N) jsval).

(** [o[key] = v] on an object created by [{}]: the key [__proto__] is
    an accessor, and its setter ignores a value that is not an object. *)
Definition assign (o : jsobject) (key : jsstring) (v : jsval) : jsobject :=
  if str_eqb key (lit "__proto__") then o else <[key := v]> o.

(** What [res.json] sends of a value.  [JSON.stringify] leaves out a
    property whose value is undefined and prints a number that is NaN as
    [null]; [Number(undefined)] is NaN.  Whether [Number] of a text is
    NaN is not decided here: [JNumber n] stands for what is printed for
    the number [n]. *)
Inductive json : Type :=
| JNull
| JString (s : jsstring)
| JNumber (n : jsnumber).

Definition stringify (v : jsval) : option json :=
  match v with
  | VUndefined => None
  | VString s => Some (JString s)
  | VNumber (Number None) => Some JNull
  | VNumber n => Some (JNumber n)
  end.

(** The object a client receives for [o]. *)
Definition sent (o : jsobject) : gmap (list N) json := omap stringify o.

(** What [res.status(code).json(...)] sends. *)
Inductive http (A : Type) : Type :=
| Ok200 (body : A)
| Fail (code : nat) (message : jsstring).
Arguments Ok200 {A} body.
Arguments Fail {A} code message.

Definition status_code {A} (r : http A) : nat :=
  match r with
  | Ok200 _ => 200
  | Fail code _ => code
  end.

End Js.
Import Js.

(** ** Urgency classifier ([getUrgencyLevel], backend/server.js) *)

Definition getUrgencyLevel (humanitarian severity : jsstring) : jsstring :=
  if str_eqb humanitarian (lit "affected_injured_or_dead_people") then
    if str_eqb severity (lit "severe") then lit "5 (Critical)"
    else if str_eqb severity (lit "mild") then lit "4 (High)"
    else if str_eqb severity (lit "little_or_none") then lit "3 (Moderate)"
    else lit "N/A"
  else if str_eqb humanitarian (lit "infrastructure_and_utility_damage") then
    if str_eqb severity (lit "severe") then lit "4 (High)"
    else if str_eqb severity (lit "mild") then lit "3 (Moderate)"
    else if str_eqb severity (lit "little_or_none") then lit "2 (Low)"
    else lit "N/A"
  else if str_eqb humanitarian (lit "rescue_volunteering_or_donation_effort") then
    if str_eqb severity (lit "severe") then lit "3 (Moderate)"
    else if str_eqb severity (lit "mild") then lit "2 (Low)"
    else if str_eqb severity (lit "little_or_none") then lit "1 (Minimal)"
    else lit "N/A"
  else if str_eqb humanitarian (lit "not_humanitarian") then
    if str_eqb severity (lit "severe") then lit "2 (Low)"
    else if str_eqb severity (lit "mild") || str_eqb severity (lit "little_or_none")
    then lit "1 (Minimal)"
    else lit "N/A"
  else lit "N/A".

(** The categories the prediction service is expected to answer with. *)
Definition humanitarian_categories : list jsstring :=
  [ lit "affected_injured_or_dead_people";
    lit "infrastructure_and_utility_damage";
    lit "rescue_volunteering_or_donation_effort";
    lit "not_humanitarian" ].

Definition severity_categories : list jsstring :=
  [ lit "severe"; lit "mild"; lit "little_or_none" ].

(** ** The report store and the routes both servers share *)

Module Store.

(** [csvData.trim().split("\n")]. *)
Definition readLines (csvData : jsstring) : list jsstring :=
  split LF (trim csvData).

Definition is_numeric_header (header : jsstring) : bool :=
  str_eqb header (lit "latitude") || str_eqb header (lit "longitude")
  || str_eqb header (lit "id").

(** The value stored under [header] for the cell [row[index]]. *)
Definition field_value (header : jsstring) (x : option jsstring) : jsval :=
  if is_numeric_header header then VNumber (Number x) else cell x.

(** [headers.forEach((header, index) => ...)], from [index] on. *)
Fixpoint forEach_header (headers : list jsstring) (index : nat)
    (row : list jsstring) (report : jsobject) : jsobject :=
  match headers with
  | [] => report
  | header :: rest =>
      forEach_header rest (S index) row
        (assign report header (field_value header (row !! index)))
  end.

(** GET /user/reports/ *)
Definition getReports (csvData : jsstring) : http (list jsobject) :=
  let lines := readLines csvData in
  let headers := split COMMA (default [] (lines !! 0)) in
  Ok200 ((λ line, forEach_header headers 0 (split COMMA line) ∅)
           <$> drop 1 lines).

(** The multipart form of POST /user/report/; [image] is the name multer
    gave the uploaded file, [None] when no file came with the form. *)
Record report_form : Type := ReportForm {
  image : option jsstring;
  latitude : jsstring;
  longitude : jsstring;
  location : jsstring;
  description : jsstring
}.

(** The text ends with a character that is not white space, followed by
    one line feed: the shape of every file the servers write by
    appending. *)
Definition terminated (csvData : jsstring) : bool :=
  match rev csvData with
  | l :: c :: _ => N.eqb l LF && negb (is_whitespace c)
  | _ => false
  end.

(** The file starts with the header line and is empty after it or ends
    with a line feed. *)
Definition headed (header_line csvData : jsstring) : Prop :=
  ∃ body,
    csvData = header_line ++ body ∧ (body = [] ∨ last body = Some LF).

(** A text whose last character is not white space. *)
Definition ends_in_text (s : jsstring) : Prop :=
  ∃ r d, s = r ++ [d] ∧ is_whitespace d = false.

(** A value that holds no line feed, and one that holds no comma either. *)
Definition one_line (value : jsstring) : Prop := LF ∉ value.
Definition plain (value : jsstring) : Prop :=
  (COMMA ∉ value) ∧ (LF ∉ value).

(** The values a form contributes to a row, and a form that comes with
    an image and whose values all satisfy [P]. *)
Definition form_values (form : report_form) : list jsstring :=
  [ default [] (image form); latitude form; longitude form; location form;
    description form ].

Definition accepted_with (P : jsstring → Prop) (form : report_form) : Prop :=
  is_Some (image form) ∧ Forall P (form_values form).

(** The number of lines after the header line. *)
Definition data_rows (csvData : jsstring) : nat :=
  length (readLines csvData) - 1.

(** The first column of a line. *)
Definition first_column (line : jsstring) : option jsstring :=
  split COMMA line !! 0.

(** The [id] of a response body. *)
Definition response_id (r : http jsobject) : option jsval :=
  match r with
  | Ok200 body => body !! lit "id"
  | Fail _ _ => None
  end.

(** Some data row has not as many columns as the header row. *)
Definition misaligned (csvData : jsstring) : bool :=
  let lines := readLines csvData in
  let headers := split COMMA (default [] (lines !! 0)) in
  existsb (λ line, negb (Nat.eqb (length (split COMMA line)) (length headers)))
    (drop 1 lines).

End Store.
Import Store.

(** ** The in-memory user directory (POST /signup, POST /login) *)

Module Directory.

Record user : Type := User {
  mobile_number : jsstring;
  name : jsstring;
  email : jsstring;
  password_hash : jsstring;
  mpin : jsstring;
  wallet_amount : jsnumber
}.

Record contact : Type := Contact {
  contact_mobile_number : jsstring;
  contact_name : jsstring
}.

Record login_body : Type := LoginBody {
  login_message : jsstring;
  login_user : contact;
  login_contacts : list contact
}.

Section Signup.

(** [crypto.createHash("sha256").update(password).digest("hex")]. *)
Variable sha256_hex : jsstring → jsstring.

(** [update] throws a TypeError when [password] is not a string:
    [None] stands for a password that is missing from the body or is
    another kind of value, and for the exception it leads to. *)
Definition hashPassword (password : option jsstring) : option jsstring :=
  sha256_hex <$> password.

(** POST /signup : the response and the directory afterwards.  The
    exception of [hashPassword] is caught by the handler, which answers
    500 before anything is pushed. *)
Definition signup (users : list user)
    (mobile_number' name' email' : jsstring) (password : option jsstring)
    (mpin' : jsstring)
  : http (jsstring * user) * list user :=
  match find (λ user, str_eqb (mobile_number user) mobile_number') users with
  | Some _ => (Fail 400 (lit "Mobile number already exists."), users)
  | None =>
      match hashPassword password with
      | None => (Fail 500 (lit "Failed to sign up user."), users)
      | Some hashedPassword =>
          let newUser :=
            {| mobile_number := mobile_number';
               name := name';
               email := email';
               password_hash := hashedPassword;
               mpin := mpin';
               wallet_amount := Int 0 |} in
          (Ok200 (lit "User created successfully", newUser),
           users ++ [newUser])
      end
  end.

End Signup.

Definition login (users : list user) (mobile_number' mpin' : jsstring)
  : http login_body :=
  match find (λ u, str_eqb (mobile_number u) mobile_number') users with
  | None => Fail 404 (lit "User not found.")
  | Some user =>
      if negb (str_eqb (mpin user) mpin') then Fail 401 (lit "Invalid MPIN.")
      else
        let contacts :=
          (λ u, {| contact_mobile_number := mobile_number u;
                   contact_name := name u |})
            <$> filter (λ u, mobile_number u ≠ mobile_number') users in
        Ok200 {| login_message := lit "Login successful";
                 login_user := {| contact_mobile_number := mobile_number user;
                                  contact_name := name user |};
                 login_contacts := contacts |}
  end.

(** What a login response shows of a user. *)
Definition public_profile (u : user) : contact :=
  {| contact_mobile_number := mobile_number u; contact_name := name u |}.

(** Two users that differ at most in what a login with the number
    [caller] must not show: the e-mail address, the password hash, the
    wallet, and the MPIN unless the user is the caller. *)
Definition same_to_login (caller : jsstring) (u v : user) : Prop :=
  mobile_number u = mobile_number v ∧ name u = name v
  ∧ (mobile_number u = caller → mpin u = mpin v).

(** Every stored wallet holds 0. *)
Definition wallets_at_zero (users : list user) : Prop :=
  Forall (λ u, wallet_amount u = Int 0) users.

End Directory.
Import Directory.

(** ** The server with a status column and the admin route *)

Module StatusServer.

(** The line written when [reports.csv] does not exist. *)
Definition CSV_HEADER : jsstring :=
  lit "id,image_filename,latitude,longitude,location,description,status"
  ++ [LF].

(** The body of a report response, an object literal of seven fields. *)
Definition report_json (id image_filename latitude' longitude' location'
    description' status : jsval) : jsobject :=
  list_to_map
    [ (lit "id", id); (lit "image_filename", image_filename);
      (lit "latitude", latitude'); (lit "longitude", longitude');
      (lit "location", location'); (lit "description", description');
      (lit "status", status) ].

(** The template literal [newRow]. *)
Definition newRow (reportId : nat) (filename : jsstring) (form : report_form)
  : jsstring :=
  toString reportId ++ [COMMA] ++ filename ++ [COMMA]
  ++ latitude form ++ [COMMA] ++ longitude form ++ [COMMA]
  ++ location form ++ [COMMA] ++ description form ++ [COMMA]
  ++ lit "not_resolved" ++ [LF].

(** POST /user/report/ : the response and the file afterwards. *)
Definition postReport (csvData : jsstring) (form : report_form)
  : http jsobject * jsstring :=
  match image form with
  | None => (Fail 400 (lit "Image file is required."), csvData)
  | Some filename =>
      let lines := readLines csvData in
      let reportId := length lines in
      (Ok200 (report_json (VNumber (Int reportId)) (VString filename)
                (VNumber (parseFloat (latitude form)))
                (VNumber (parseFloat (longitude form)))
                (VString (location form)) (VString (description form))
                (VString (lit "not_resolved"))),
       csvData ++ newRow reportId filename form)
  end.

(** The forms submitted one after the other. *)
Fixpoint postReports (csvData : jsstring) (forms : list report_form)
  : list (http jsobject) * jsstring :=
  match forms with
  | [] => ([], csvData)
  | form :: rest =>
      let '(r, csv) := postReport csvData form in
      let '(rs, csv') := postReports csv rest in
      (r :: rs, csv')
  end.

(** The columns of the row of a form, in the order of the header. *)
Definition columns (reportId : nat) (form : report_form) : list jsstring :=
  toString reportId :: form_values form ++ [lit "not_resolved"].

(** The first columns of the lines that submitting [forms] added to the
    file. *)
Definition new_row_ids (csvData : jsstring) (forms : list report_form)
  : list (option jsstring) :=
  first_column
    <$> drop (length (readLines csvData))
          (readLines (postReports csvData forms).2).

(** Submitting [forms] adds one row per form, with the ids [k+1], ...,
    [k+N] for [k] the number of data rows before; the responses carry
    the same ids. *)
Definition consecutive_ids (csvData : jsstring) (forms : list report_form)
  : Prop :=
  new_row_ids csvData forms
  = imap (λ j _, Some (toString (data_rows csvData + 1 + j))) forms
  ∧ response_id <$> (postReports csvData forms).1
    = imap (λ j _, Some (VNumber (Int (data_rows csvData + 1 + j)))) forms.

(** The record a row of [form] with the id [reportId] reads back as. *)
Definition read_back (reportId : nat) (form : report_form) : jsobject :=
  report_json (VNumber (Number (Some (toString reportId))))
    (VString (default [] (image form)))
    (VNumber (Number (Some (latitude form))))
    (VNumber (Number (Some (longitude form))))
    (VString (location form)) (VString (description form))
    (VString (lit "not_resolved")).

(** Submitting [form] and then reading all reports gives, as the last
    record, the written values. *)
Definition round_trips (csvData : jsstring) (form : report_form) : Prop :=
  ∃ reports,
    getReports (postReport csvData form).2 = Ok200 reports
    ∧ last reports = Some (read_back (length (readLines csvData)) form).

(** The callback of [lines.map]: the new line, and whether the callback
    set [reportFound]. *)
Definition updateLine (reportId status : jsstring) (index : nat)
    (line : jsstring) : jsstring * bool :=
  if decide (index = 0) then (line, false)
  else
    let row := split COMMA line in
    if bool_decide (row !! 0 = Some reportId)
    then (join [COMMA] (array_set row 6 status), true)
    else (line, false).

(** PUT /admin/report/:report_id/status : the response and the file
    afterwards.  When no line of the written file starts with the id and
    a comma, [updatedReport] is undefined and its [split] throws after
    the file was written. *)
Definition putStatus (csvData reportId status : jsstring)
  : http jsobject * jsstring :=
  let lines := readLines csvData in
  let mapped := imap (updateLine reportId status) lines in
  let updatedLines := fst <$> mapped in
  let reportFound := existsb snd mapped in
  if negb reportFound then (Fail 404 (lit "Report not found."), csvData)
  else
    let written := writeFileSync (join [LF] updatedLines ++ [LF]) in
    match find (startsWith (reportId ++ [COMMA])) updatedLines with
    | None => (Fail 500 (lit "Failed to update report status."), written)
    | Some updatedReport =>
        let row := split COMMA updatedReport in
        (Ok200 (report_json (VNumber (Number (row !! 0))) (cell (row !! 1))
                  (VNumber (Number (row !! 2))) (VNumber (Number (row !! 3)))
                  (cell (row !! 4)) (cell (row !! 5)) (cell (row !! 6))),
         written)
    end.

(** The rows of the file text itself, cut at every line feed and at
    nothing else; the piece after the last line feed is the last one.
    The text is the rows joined with line feeds, so that two texts with
    the same rows are the same text. *)
Definition file_rows (csvData : jsstring) : list jsstring :=
  split LF csvData.

(** The update of row [i] to [status] changed the seventh column of that
    row and nothing else in the text of the file. *)
Definition updates_only_status (csvData reportId status : jsstring)
    (i : nat) : Prop :=
  let before := file_rows csvData in
  let after := file_rows (putStatus csvData reportId status).2 in
  length after = length before
  ∧ after !! 0 = before !! 0
  ∧ (∀ j, j ≠ i → after !! j = before !! j)
  ∧ ∃ line line',
      before !! i = Some line ∧ after !! i = Some line'
      ∧ split COMMA line' !! 6 = Some status
      ∧ length (split COMMA line') = length (split COMMA line)
      ∧ ∀ c, c ≠ 6 → split COMMA line' !! c = split COMMA line !! c.

(** Line [i] is a data row of seven columns with the id [reportId]. *)
Definition well_formed_row (csvData reportId : jsstring) (i : nat) : Prop :=
  1 ≤ i
  ∧ ∃ line, readLines csvData !! i = Some line
      ∧ length (split COMMA line) = 7
      ∧ first_column line = Some reportId.

(** No data row has the id [reportId], line [i] perhaps excepted. *)
Definition no_other_row (csvData reportId : jsstring) (i : nat) : Prop :=
  ∀ j line, 1 ≤ j → j ≠ i → readLines csvData !! j = Some line →
    first_column line ≠ Some reportId.

(** The file text has no white space before its first line or at the
    end of its last line, and one line feed after it: the lines the
    handlers read are the rows the file holds. *)
Definition tight (csvData : jsstring) : Prop :=
  csvData = trim csvData ++ [LF].

(** A status that the file gives back as written: no comma, no line
    feed, no white space at its end. *)
Definition storable (status : jsstring) : Prop :=
  plain status
  ∧ match last status with
    | Some c => is_whitespace c = false
    | None => True
    end.

(** *** The whole server as a state machine *)

Record state : Type := State {
  reports_csv : jsstring;
  users : list user
}.

Inductive request : Type :=
| PostReport (form : report_form)
| GetReports
| PutStatus (report_id status : jsstring)
| Signup (mobile_number name email : jsstring) (password : option jsstring)
    (mpin : jsstring)
| Login (mobile_number mpin : jsstring).

Inductive response : Type :=
| ReportResponse (r : http jsobject)
| ReportsResponse (r : http (list jsobject))
| StatusResponse (r : http jsobject)
| SignupResponse (r : http (jsstring * user))
| LoginResponse (r : http login_body).

(** The state after start-up, given what [reports.csv] held if it
    existed. *)
Definition startup (existing : option jsstring) : state :=
  {| reports_csv := default CSV_HEADER existing; users := [] |}.

Section Handle.

Variable sha256_hex : jsstring → jsstring.

Definition handle (st : state) (req : request) : response * state :=
  match req with
  | PostReport form =>
      let '(r, csv) := postReport (reports_csv st) form in
      (ReportResponse r, {| reports_csv := csv; users := users st |})
  | GetReports => (ReportsResponse (getReports (reports_csv st)), st)
  | PutStatus report_id status =>
      let '(r, csv) := putStatus (reports_csv st) report_id status in
      (StatusResponse r, {| reports_csv := csv; users := users st |})
  | Signup mobile_number name email password mpin =>
      let '(r, us) :=
        signup sha256_hex (users st) mobile_number name email password mpin in
      (SignupResponse r, {| reports_csv := reports_csv st; users := us |})
  | Login mobile_number mpin =>
      (LoginResponse (login (users st) mobile_number mpin), st)
  end.

(** The requests served one after the other. *)
Definition serve (st : state) (reqs : list request) : state :=
  foldl (λ st req, (handle st req).2) st reqs.

End Handle.

End StatusServer.

(** ** The server with the prediction service (backend/server.js) *)

Module PredictionServer.

Definition CSV_HEADER : jsstring :=
  lit "id,image_filename,latitude,longitude,location,description,severity,humanitarian,disaster_or_not,urgency_level"
  ++ [LF].

(** What the three calls to the prediction service answered, in the order
    they are made: the [predicted_label] of the response, or [None] when
    the call failed and [await] threw. *)
Record predictions : Type := Predictions {
  damage_label : option jsstring;
  humanitarian_label : option jsstring;
  text_label : option jsstring
}.

Definition report_json (id image_filename latitude' longitude' location'
    description' severity humanitarian disaster_or_not urgency_level
    : jsval) : jsobject :=
  list_to_map
    [ (lit "id", id); (lit "image_filename", image_filename);
      (lit "latitude", latitude'); (lit "longitude", longitude');
      (lit "location", location'); (lit "description", description');
      (lit "severity", severity); (lit "humanitarian", humanitarian);
      (lit "disaster_or_not", disaster_or_not);
      (lit "urgency_level", urgency_level) ].

(** POST /user/report/ *)
Definition postReport (csvData : jsstring) (form : report_form)
    (answers : predictions) : http jsobject * jsstring :=
  match image form with
  | None => (Fail 400 (lit "Image file is required."), csvData)
  | Some filename =>
      let lines := readLines csvData in
      let reportId := length lines in
      match damage_label answers, humanitarian_label answers,
            text_label answers with
      | Some severityPrediction, Some humanitarianPrediction,
        Some disasterPrediction =>
          let urgencyLevel :=
            getUrgencyLevel humanitarianPrediction severityPrediction in
          let newRow :=
            toString reportId ++ [COMMA] ++ filename ++ [COMMA]
            ++ latitude form ++ [COMMA] ++ longitude form ++ [COMMA]
            ++ location form ++ [COMMA] ++ description form ++ [COMMA]
            ++ severityPrediction ++ [COMMA] ++ humanitarianPrediction
            ++ [COMMA] ++ disasterPrediction ++ [COMMA] ++ urgencyLevel
            ++ [LF] in
          (Ok200 (report_json (VNumber (Int reportId)) (VString filename)
                    (VNumber (parseFloat (latitude form)))
                    (VNumber (parseFloat (longitude form)))
                    (VString (location form)) (VString (description form))
                    (VString severityPrediction)
                    (VString humanitarianPrediction)
                    (VString disasterPrediction) (VString urgencyLevel)),
           csvData ++ newRow)
      | _, _, _ => (Fail 500 (lit "Failed to upload report."), csvData)
      end
  end.

(** The columns of the row of a form, in the order of the header. *)
Definition columns (reportId : nat) (form : report_form)
    (severity humanitarian disaster : jsstring) : list jsstring :=
  toString reportId
  :: form_values form
  ++ [ severity; humanitarian; disaster;
       getUrgencyLevel humanitarian severity ].

(** The forms submitted one after the other, each with the answers of
    the prediction service to it. *)
Fixpoint postReports (csvData : jsstring)
    (forms : list (report_form * predictions))
  : list (http jsobject) * jsstring :=
  match forms with
  | [] => ([], csvData)
  | (form, answers) :: rest =>
      let '(r, csv) := postReport csvData form answers in
      let '(rs, csv') := postReports csv rest in
      (r :: rs, csv')
  end.

(** The three calls succeeded, with labels that satisfy [P]. *)
Definition answered_with (P : jsstring → Prop) (answers : predictions)
  : Prop :=
  ∃ severity humanitarian disaster,
    answers = Predictions (Some severity) (Some humanitarian) (Some disaster)
    ∧ P severity ∧ P humanitarian ∧ P disaster.

(** The record a row of [form] with the id [reportId] and the given
    labels reads back as. *)
Definition read_back (reportId : nat) (form : report_form)
    (severity humanitarian disaster : jsstring) : jsobject :=
  report_json (VNumber (Number (Some (toString reportId))))
    (VString (default [] (image form)))
    (VNumber (Number (Some (latitude form))))
    (VNumber (Number (Some (longitude form))))
    (VString (location form)) (VString (description form))
    (VString severity) (VString humanitarian) (VString disaster)
    (VString (getUrgencyLevel humanitarian severity)).

(** Submitting [form] and then reading all reports gives, as the last
    record, the written values. *)
Definition round_trips (csvData : jsstring) (form : report_form)
    (answers : predictions) : Prop :=
  ∃ reports,
    getReports (postReport csvData form answers).2 = Ok200 reports
    ∧ last reports
      = Some (read_back (length (readLines csvData)) form
                (default [] (damage_label answers))
                (default [] (humanitarian_label answers))
                (default [] (text_label answers))).

Definition new_row_ids (csvData : jsstring)
    (forms : list (report_form * predictions)) : list (option jsstring) :=
  first_column
    <$> drop (length (readLines csvData))
          (readLines (postReports csvData forms).2).

Definition consecutive_ids (csvData : jsstring)
    (forms : list (report_form * predictions)) : Prop :=
  new_row_ids csvData forms
  = imap (λ j _, Some (toString (data_rows csvData + 1 + j))) forms
  ∧ response_id <$> (postReports csvData forms).1
    = imap (λ j _, Some (VNumber (Int (data_rows csvData + 1 + j)))) forms.

Record state : Type := State {
  reports_csv : jsstring;
  users : list user
}.

Inductive request : Type :=
| PostReport (form : report_form) (answers : predictions)
| GetReports
| Signup (mobile_number name email : jsstring) (password : option jsstring)
    (mpin : jsstring)
| Login (mobile_number mpin : jsstring).

Inductive response : Type :=
| ReportResponse (r : http jsobject)
| ReportsResponse (r : http (list jsobject))
| SignupResponse (r : http (jsstring * user))
| LoginResponse (r : http login_body).

Definition startup (existing : option jsstring) : state :=
  {| reports_csv := default CSV_HEADER existing; users := [] |}.

Section Handle.

Variable sha256_hex : jsstring → jsstring.

Definition handle (st : state) (req : request) : response * state :=
  match req with
  | PostReport form answers =>
      let '(r, csv) := postReport (reports_csv st) form answers in
      (ReportResponse r, {| reports_csv := csv; users := users st |})
  | GetReports => (ReportsResponse (getReports (reports_csv st)), st)
  | Signup mobile_number name email password mpin =>
      let '(r, us) :=
        signup sha256_hex (users st) mobile_number name email password mpin in
      (SignupResponse r, {| reports_csv := reports_csv st; users := us |})
  | Login mobile_number mpin =>
      (LoginResponse (login (users st) mobile_number mpin), st)
  end.

Definition serve (st : state) (reqs : list request) : state :=
  foldl (λ st req, (handle st req).2) st reqs.

End Handle.

End PredictionServer.

(** ** The names of the uploaded files (multer's disk storage) *)

Module Upload.

(** The [filename] callback: [Date.now() + "-" + file.originalname], for
    the time [now] in milliseconds since the epoch. *)
Definition filename (now : nat) (originalname : jsstring) : jsstring :=
  toString now ++ lit "-" ++ originalname.

End Upload.

(** ** What a request can change *)

Module Traffic.

(** The [id] of a response body when it is an array length. *)
Definition response_number (r : http jsobject) : option nat :=
  match response_id r with
  | Some (VNumber (Int n)) => Some n
  | _ => None
  end.

(** The requests to the status server that can write the file, and the
    ones that can write the directory. *)
Definition status_on_file (req : StatusServer.request) : bool :=
  match req with
  | StatusServer.PostReport _ | StatusServer.PutStatus _ _ => true
  | _ => false
  end.

Definition status_on_directory (req : StatusServer.request) : bool :=
  match req with
  | StatusServer.Signup _ _ _ _ _ => true
  | _ => false
  end.

(** The same for the server with the prediction service. *)
Definition prediction_on_file (req : PredictionServer.request) : bool :=
  match req with
  | PredictionServer.PostReport _ _ => true
  | _ => false
  end.

Definition prediction_on_directory (req : PredictionServer.request) : bool :=
  match req with
  | PredictionServer.Signup _ _ _ _ _ => true
  | _ => false
  end.

(** The header names of a file. *)
Definition header_names (csvData : jsstring) : list jsstring :=
  split COMMA (default [] (readLines csvData !! 0)).

(** Every value of the object is the value the handler stores under its
    key for some cell. *)
Definition typed_by_key (report : jsobject) : Prop :=
  ∀ key v, report !! key = Some v → ∃ x, v = field_value key x.

End Traffic.

(** ** Sample data *)

Module Sample.

Definition ada : user :=
  User (lit "5550100") (lit "Ada") (lit "ada@example.org") (lit "secret")
    (lit "1234") (Int 0).

Definition bob : user :=
  User (lit "5550199") (lit "Bob") (lit "bob@example.org") (lit "hunter2")
    (lit "4321") (Int 0).

(** Ada with another e-mail address, password hash and wallet. *)
Definition ada' : user :=
  User (lit "5550100") (lit "Ada") (lit "ada@example.com") (lit "other")
    (lit "1234") (Int 7).

(** Bob with another MPIN. *)
Definition bob' : user :=
  User (lit "5550199") (lit "Bob") (lit "bob@example.org") (lit "hunter2")
    (lit "9999") (Int 0).

(** The report of the scenario of the specification. *)
Definition flood_form : report_form :=
  {| image := Some (lit "1700000000000-flood.png");
     latitude := lit "12.9";
     longitude := lit "77.6";
     location := lit "MG Road";
     description := lit "Flood" |}.

(** A report whose description has two lines. *)
Definition two_line_form : report_form :=
  {| image := Some (lit "1700000000001-road.png");
     latitude := lit "12.9";
     longitude := lit "77.6";
     location := lit "MG Road";
     description := lit "Flood" ++ [LF] ++ lit "road closed" |}.

(** Answers of the prediction service. *)
Definition critical : PredictionServer.predictions :=
  PredictionServer.Predictions (Some (lit "severe"))
    (Some (lit "affected_injured_or_dead_people")) (Some (lit "disaster")).

(** A file with the header line of the status server, but no line feed
    after it. *)
Definition unterminated_header : jsstring :=
  lit "id,image_filename,latitude,longitude,location,description,status".

(** The file of the status server after that report was submitted to a
    new file. *)
Definition one_report : jsstring :=
  StatusServer.CSV_HEADER
  ++ lit "1,1700000000000-flood.png,12.9,77.6,MG Road,Flood,not_resolved"
  ++ [LF].

(** A file in which two rows carry the id 1. *)
Definition twice_the_id : jsstring :=
  one_report
  ++ lit "1,1700000000002-fire.png,13.0,77.5,Hebbal,Fire,not_resolved"
  ++ [LF].

(** The file after the status of a second report was set to [open] with
    a blank after it. *)
Definition blank_at_the_end : jsstring :=
  one_report
  ++ lit "2,1700000000002-fire.png,13.0,77.5,Hebbal,Fire,open " ++ [LF].

(** The file of one report with a byte-order mark before the header. *)
Definition marked : jsstring := 65279%N :: one_report.

(** A status that is one high surrogate, as the JSON text ["\ud83d"]
    is parsed. *)
Definition half_a_pair : jsstring := [55357%N].

(** A file whose only data row has two columns. *)
Definition short_row : jsstring :=
  StatusServer.CSV_HEADER ++ lit "1,1700000000000-flood.png" ++ [LF].

End Sample.

(** * Properties *)

(** Decides a closed proposition by evaluating its decision procedure. *)
Ltac by_computing := apply (bool_decide_unpack _); vm_compute; exact I.

(** ** Strings: [split], [join] and [trim] *)

Module JsFacts.

Lemma str_eqb_true (a b : jsstring) : str_eqb a b = true ↔ a = b.
Proof. unfold str_eqb. apply bool_decide_eq_true. Qed.

Lemma str_eqb_false (a b : jsstring) : str_eqb a b = false ↔ a ≠ b.
Proof. unfold str_eqb. apply bool_decide_eq_false. Qed.

Lemma split_not_nil sep s : split sep s ≠ [].
Proof.
  destruct s as [|c s]; simpl; [done|].
  destruct (N.eqb c sep); [done|]. by destruct (split sep s).
Qed.

Lemma split_length_pos sep s : 0 < length (split sep s).
Proof.
  pose proof (split_not_nil sep s) as H.
  destruct (split sep s); [done | simpl; lia].
Qed.

Lemma split_no_sep sep s : sep ∉ s → split sep s = [s].
Proof.
  induction s as [|c s IH]; intros Hs; simpl; [done|].
  apply not_elem_of_cons in Hs as [Hc Hs].
  destruct (N.eqb_spec c sep) as [->|_]; [done|].
  by rewrite (IH Hs).
Qed.

Lemma split_app_sep sep a b :
  split sep (a ++ sep :: b) = split sep a ++ split sep b.
Proof.
  induction a as [|c a IH]; simpl.
  - by rewrite N.eqb_refl.
  - destruct (N.eqb c sep); rewrite IH; [done|].
    pose proof (split_not_nil sep a) as H.
    by destruct (split sep a).
Qed.

Lemma split_pieces sep s : Forall (λ piece, sep ∉ piece) (split sep s).
Proof.
  induction s as [|c s IH]; simpl.
  - repeat constructor. apply not_elem_of_nil.
  - destruct (N.eqb_spec c sep) as [->|Hc].
    + constructor; [apply not_elem_of_nil | done].
    + destruct (split sep s) as [|piece pieces].
      * repeat constructor. by intros ->%list_elem_of_singleton.
      * inversion IH; subst. constructor; [|done].
        apply not_elem_of_cons. split; [congruence | done].
Qed.

Lemma join_cons sep x y rest :
  join sep (x :: y :: rest) = x ++ sep ++ join sep (y :: rest).
Proof. done. Qed.

Lemma join_split sep s : join [sep] (split sep s) = s.
Proof.
  induction s as [|c s IH]; simpl; [done|].
  pose proof (split_not_nil sep s) as Hne.
  destruct (N.eqb_spec c sep) as [->|Hc].
  - destruct (split sep s) as [|p ps]; [done|].
    rewrite join_cons, IH. done.
  - destruct (split sep s) as [|p ps]; [done|].
    destruct ps as [|q ps]; [simpl in *; by rewrite IH|].
    rewrite join_cons in *. rewrite <- IH. done.
Qed.

Lemma split_join sep arr :
  arr ≠ [] → Forall (λ piece, sep ∉ piece) arr →
  split sep (join [sep] arr) = arr.
Proof.
  induction arr as [|x arr IH]; intros Hne Hall; [done|].
  inversion Hall as [|? ? Hx Harr]; subst.
  destruct arr as [|y arr].
  - simpl. by apply split_no_sep.
  - rewrite join_cons. change (x ++ [sep] ++ ?t) with (x ++ sep :: t).
    rewrite split_app_sep, (split_no_sep _ _ Hx), IH; done.
Qed.

Lemma join_app sep a b :
  a ≠ [] → b ≠ [] → join sep (a ++ b) = join sep a ++ sep ++ join sep b.
Proof.
  induction a as [|x a IH]; intros Ha Hb; [done|].
  destruct a as [|y a].
  - destruct b; [done|]. done.
  - change ((x :: y :: a) ++ b) with (x :: y :: (a ++ b)).
    rewrite !join_cons.
    change (y :: a ++ b) with ((y :: a) ++ b).
    rewrite IH by done. by rewrite <- !app_assoc.
Qed.

Lemma join_no_unit (c sep : N) arr :
  c ≠ sep → Forall (λ piece, c ∉ piece) arr → c ∉ join [sep] arr.
Proof.
  intros Hc. induction 1 as [|x arr Hx Harr IH].
  - apply not_elem_of_nil.
  - destruct arr as [|y arr]; [done|].
    rewrite join_cons, !not_elem_of_app. split; [done|]. split; [|done].
    by intros ->%list_elem_of_singleton.
Qed.

Lemma startsWith_app prefix s : startsWith prefix (prefix ++ s) = true.
Proof.
  induction prefix as [|p prefix IH]; simpl; [done|].
  by rewrite N.eqb_refl, IH.
Qed.

(** *** Trimming *)

Lemma trimStart_app_text x c y :
  is_whitespace c = false → trimStart (x ++ c :: y) = trimStart x ++ c :: y.
Proof.
  intros Hc. induction x as [|d x IH]; simpl.
  - by rewrite Hc.
  - destruct (is_whitespace d) eqn:Hd; [done|].
    by rewrite <- app_comm_cons.
Qed.

Lemma trimStart_text c s :
  is_whitespace c = false → trimStart (c :: s) = c :: s.
Proof. intros Hc. simpl. by rewrite Hc. Qed.

Lemma trimEnd_app_text x c y :
  is_whitespace c = false → trimEnd (x ++ c :: y) = x ++ c :: trimEnd y.
Proof.
  intros Hc. unfold trimEnd.
  rewrite rev_app_distr. simpl. rewrite <- app_assoc. simpl.
  rewrite (trimStart_app_text _ _ _ Hc), rev_app_distr. simpl.
  by rewrite rev_involutive, <- app_assoc.
Qed.

Lemma trimEnd_nil : trimEnd [] = [].
Proof. done. Qed.

Lemma trimEnd_LF : trimEnd [LF] = [].
Proof. done. Qed.

Lemma trimStart_head s :
  trimStart s = [] ∨ ∃ c r, trimStart s = c :: r ∧ is_whitespace c = false.
Proof.
  induction s as [|c s IH]; simpl; [by left|].
  destruct (is_whitespace c) eqn:Hc; [done|]. right. eauto.
Qed.

Lemma trimEnd_last s :
  trimEnd s = [] ∨ ∃ r c, trimEnd s = r ++ [c] ∧ is_whitespace c = false.
Proof.
  unfold trimEnd. destruct (trimStart_head (rev s)) as [->|(c & r & -> & Hc)].
  - by left.
  - right. exists (rev r), c. done.
Qed.

End JsFacts.

(** ** The urgency classifier *)

Module UrgencyFacts.
Import JsFacts.

Lemma N_A_when_no_branch_returns humanitarian severity :
  humanitarian ∉ humanitarian_categories ∨ severity ∉ severity_categories →
  getUrgencyLevel humanitarian severity = lit "N/A".
Proof.
  intros Hout. unfold getUrgencyLevel.
  repeat match goal with
         | |- context [str_eqb ?a ?b] => destruct (str_eqb a b) eqn:?
         end; simpl; try reflexivity; exfalso;
    repeat match goal with
           | E : str_eqb _ _ = true |- _ => apply str_eqb_true in E; subst
           end;
    destruct Hout as [Hout|Hout]; apply Hout;
    unfold humanitarian_categories, severity_categories;
    repeat first [apply list_elem_of_here | apply list_elem_of_further].
Qed.

(** C1.  On the twelve pairs of a humanitarian and a severity category
    [getUrgencyLevel] returns the tier of the table of section 4.2 of the
    specification, and on every pair of strings with one of them outside
    its categories it returns "N/A"; being a total function it raises
    nothing. *)
Theorem getUrgencyLevel_table :
  ( getUrgencyLevel (lit "affected_injured_or_dead_people") (lit "severe")
      = lit "5 (Critical)"
    ∧ getUrgencyLevel (lit "affected_injured_or_dead_people") (lit "mild")
      = lit "4 (High)"
    ∧ getUrgencyLevel (lit "affected_injured_or_dead_people")
        (lit "little_or_none") = lit "3 (Moderate)"
    ∧ getUrgencyLevel (lit "infrastructure_and_utility_damage") (lit "severe")
      = lit "4 (High)"
    ∧ getUrgencyLevel (lit "infrastructure_and_utility_damage") (lit "mild")
      = lit "3 (Moderate)"
    ∧ getUrgencyLevel (lit "infrastructure_and_utility_damage")
        (lit "little_or_none") = lit "2 (Low)"
    ∧ getUrgencyLevel (lit "rescue_volunteering_or_donation_effort")
        (lit "severe") = lit "3 (Moderate)"
    ∧ getUrgencyLevel (lit "rescue_volunteering_or_donation_effort")
        (lit "mild") = lit "2 (Low)"
    ∧ getUrgencyLevel (lit "rescue_volunteering_or_donation_effort")
        (lit "little_or_none") = lit "1 (Minimal)"
    ∧ getUrgencyLevel (lit "not_humanitarian") (lit "severe") = lit "2 (Low)"
    ∧ getUrgencyLevel (lit "not_humanitarian") (lit "mild")
      = lit "1 (Minimal)"
    ∧ getUrgencyLevel (lit "not_humanitarian") (lit "little_or_none")
      = lit "1 (Minimal)" )
  ∧ ∀ humanitarian severity : jsstring,
      humanitarian ∉ humanitarian_categories
      ∨ severity ∉ severity_categories →
      getUrgencyLevel humanitarian severity = lit "N/A".
Proof.
  split.
  - repeat split; vm_compute; reflexivity.
  - apply N_A_when_no_branch_returns.
Qed.

(** Two pairs outside the table: an unknown humanitarian label, and a
    severity label in another case. *)
Lemma getUrgencyLevel_table_witness :
  getUrgencyLevel (lit "flood") (lit "severe") = lit "N/A"
  ∧ getUrgencyLevel (lit "not_humanitarian") (lit "Severe") = lit "N/A".
Proof.
  split; apply (proj2 getUrgencyLevel_table).
  - left. by_computing.
  - right. by_computing.
Defined.

(** The level is one of six texts, none of which holds a comma or a line
    feed, and none of which ends in white space. *)
Lemma getUrgencyLevel_range humanitarian severity :
  getUrgencyLevel humanitarian severity
  ∈ [ lit "5 (Critical)"; lit "4 (High)"; lit "3 (Moderate)"; lit "2 (Low)";
      lit "1 (Minimal)"; lit "N/A" ].
Proof.
  unfold getUrgencyLevel.
  repeat match goal with
         | |- context [str_eqb ?a ?b] => destruct (str_eqb a b)
         end; simpl;
    repeat first [apply list_elem_of_here | apply list_elem_of_further].
Qed.

End UrgencyFacts.

(** ** The user directory *)

Module DirectoryFacts.
Import JsFacts.

Lemma find_absent (users : list user) m :
  (∀ u, u ∈ users → mobile_number u ≠ m) →
  find (λ u, str_eqb (mobile_number u) m) users = None.
Proof.
  induction users as [|u users IH]; intros Hall; simpl; [done|].
  destruct (str_eqb (mobile_number u) m) eqn:E.
  - apply str_eqb_true in E. exfalso. apply (Hall u); [left | done].
  - apply IH. intros v Hv. apply Hall. by right.
Qed.

Lemma find_first (before : list user) caller after m :
  (∀ u, u ∈ before → mobile_number u ≠ m) →
  mobile_number caller = m →
  find (λ u, str_eqb (mobile_number u) m) (before ++ caller :: after)
  = Some caller.
Proof.
  intros Hbefore Hcaller.
  induction before as [|u before IH]; simpl.
  - by rewrite (proj2 (str_eqb_true _ _) Hcaller).
  - rewrite (proj2 (str_eqb_false _ _) (Hbefore u ltac:(left))).
    apply IH. intros v Hv. apply Hbefore. by right.
Qed.

Lemma find_present (users : list user) m :
  (∃ u, u ∈ users ∧ mobile_number u = m) →
  ∃ u, find (λ u, str_eqb (mobile_number u) m) users = Some u.
Proof.
  induction users as [|u users IH]; intros (v & Hv & Hm); simpl.
  - by apply elem_of_nil in Hv.
  - destruct (str_eqb (mobile_number u) m) eqn:E; [eauto|].
    apply IH. exists v. split; [|done].
    apply elem_of_cons in Hv as [->|Hv]; [|done].
    apply str_eqb_false in E. done.
Qed.

Lemma filter_keeps_others (users : list user) m :
  (∀ u, u ∈ users → mobile_number u ≠ m) →
  filter (λ u, mobile_number u ≠ m) users = users.
Proof.
  induction users as [|u users IH]; intros Hall; [done|].
  rewrite filter_cons_True by (apply Hall; left).
  f_equal. apply IH. intros v Hv. apply Hall. by right.
Qed.

Section Signup.

Variable sha256_hex : jsstring → jsstring.

(** C7.  Signing up with a number no stored user has and a password
    that is a string succeeds, appends a record whose wallet is 0 and
    answers with that record; with such a number and a password that is
    missing or not a string the handler answers 500 and stores nothing;
    signing up with a number some stored user has answers 400, whatever
    the password, and leaves the directory as it was. *)
Theorem signup_fresh_or_conflict (users : list user)
    (mobile name email : jsstring) (password : option jsstring)
    (mpin : jsstring) :
  ((∀ u, u ∈ users → mobile_number u ≠ mobile) →
   ∀ text, password = Some text →
   ∃ newUser,
     signup sha256_hex users mobile name email password mpin
     = (Ok200 (lit "User created successfully", newUser), users ++ [newUser])
     ∧ newUser = User mobile name email (sha256_hex text) mpin (Int 0)
     ∧ wallet_amount newUser = Int 0)
  ∧ ((∀ u, u ∈ users → mobile_number u ≠ mobile) →
     password = None →
     signup sha256_hex users mobile name email password mpin
     = (Fail 500 (lit "Failed to sign up user."), users))
  ∧ ((∃ u, u ∈ users ∧ mobile_number u = mobile) →
     signup sha256_hex users mobile name email password mpin
     = (Fail 400 (lit "Mobile number already exists."), users)
     ∧ status_code
         (signup sha256_hex users mobile name email password mpin).1 = 400).
Proof.
  split; [|split].
  - intros Hfresh text ->. unfold signup. rewrite (find_absent _ _ Hfresh).
    eexists. split; [reflexivity|]. done.
  - intros Hfresh ->. unfold signup. by rewrite (find_absent _ _ Hfresh).
  - intros Hused. unfold signup.
    destruct (find_present _ _ Hused) as [u ->]. done.
Qed.

End Signup.

(** Bob signs up after Ada; then someone signs up with Ada's number and
    no password. *)
Lemma signup_fresh_or_conflict_witness :
  (∃ newUser,
      signup (λ s, s) [Sample.ada] (lit "5550199") (lit "Bob")
        (lit "bob@example.org") (Some (lit "hunter2")) (lit "4321")
      = (Ok200 (lit "User created successfully", newUser),
         [Sample.ada; newUser])
      ∧ wallet_amount newUser = Int 0)
  ∧ signup (λ s, s) [Sample.ada] (lit "5550100") (lit "Eve")
      (lit "eve@example.org") None (lit "0000")
    = (Fail 400 (lit "Mobile number already exists."), [Sample.ada]).
Proof.
  split.
  - destruct (proj1 (signup_fresh_or_conflict (λ s, s) [Sample.ada]
                       (lit "5550199") (lit "Bob") (lit "bob@example.org")
                       (Some (lit "hunter2")) (lit "4321")))
      with (text := lit "hunter2")
      as (newUser & Hrun & _ & Hwallet).
    + intros u ->%list_elem_of_singleton. vm_compute. discriminate.
    + reflexivity.
    + exists newUser. split; [exact Hrun | exact Hwallet].
  - apply (proj2 (proj2 (signup_fresh_or_conflict (λ s, s) [Sample.ada]
                    (lit "5550100") (lit "Eve") (lit "eve@example.org")
                    None (lit "0000")))).
    exists Sample.ada. split; [apply list_elem_of_here | reflexivity].
Defined.

(** The claim as it is stated fails for a signup whose body has a number
    no stored user has but no password (or one that is not a string):
    the handler answers 500 and the directory is as it was. *)
Lemma signup_fresh_or_conflict_counterexample :
  (∀ u, u ∈ [Sample.ada] → mobile_number u ≠ lit "5550199")
  ∧ signup (λ s, s) [Sample.ada] (lit "5550199") (lit "Bob")
      (lit "bob@example.org") None (lit "4321")
    = (Fail 500 (lit "Failed to sign up user."), [Sample.ada])
  ∧ status_code
      (signup (λ s, s) [Sample.ada] (lit "5550199") (lit "Bob")
         (lit "bob@example.org") None (lit "4321")).1 ≠ 200.
Proof.
  split; [|split].
  - intros u ->%list_elem_of_singleton. vm_compute. discriminate.
  - reflexivity.
  - vm_compute. discriminate.
Qed.

(** C8.  A login with a number no stored user has answers 404; when the
    first stored user with the number has another MPIN it answers 401;
    otherwise it answers 200 with the profiles of the stored users whose
    number is not the caller's, which are all other users when the
    caller's number is stored once. *)
Theorem login_outcomes (users : list user) (mobile mpin' : jsstring) :
  ((∀ u, u ∈ users → mobile_number u ≠ mobile) →
   login users mobile mpin' = Fail 404 (lit "User not found."))
  ∧ (∀ before caller after,
       users = before ++ caller :: after →
       (∀ u, u ∈ before → mobile_number u ≠ mobile) →
       mobile_number caller = mobile →
       (mpin caller ≠ mpin' →
        login users mobile mpin' = Fail 401 (lit "Invalid MPIN."))
       ∧ (mpin caller = mpin' →
          login users mobile mpin'
          = Ok200 {| login_message := lit "Login successful";
                     login_user := public_profile caller;
                     login_contacts :=
                       public_profile
                         <$> filter (λ u, mobile_number u ≠ mobile) users |})
       ∧ (mpin caller = mpin' →
          (∀ u, u ∈ after → mobile_number u ≠ mobile) →
          login users mobile mpin'
          = Ok200 {| login_message := lit "Login successful";
                     login_user := public_profile caller;
                     login_contacts := public_profile <$> (before ++ after) |})).
Proof.
  split.
  - intros Habsent. unfold login. by rewrite (find_absent _ _ Habsent).
  - intros before caller after -> Hbefore Hcaller.
    unfold login. rewrite (find_first _ _ _ _ Hbefore Hcaller).
    split; [|split].
    + intros Hmpin. by rewrite (proj2 (str_eqb_false _ _) Hmpin).
    + intros Hmpin. by rewrite (proj2 (str_eqb_true _ _) Hmpin).
    + intros Hmpin Hafter. rewrite (proj2 (str_eqb_true _ _) Hmpin). simpl.
      do 2 f_equal. unfold public_profile. f_equal.
      rewrite filter_app, filter_cons_False by (intros H; by apply H).
      by rewrite !filter_keeps_others.
Qed.

(** An unknown number, Bob with Ada's MPIN, and Bob with his own. *)
Lemma login_outcomes_witness :
  login [Sample.ada; Sample.bob] (lit "5550111") (lit "1234")
  = Fail 404 (lit "User not found.")
  ∧ login [Sample.ada; Sample.bob] (lit "5550199") (lit "1234")
    = Fail 401 (lit "Invalid MPIN.")
  ∧ login [Sample.ada; Sample.bob] (lit "5550199") (lit "4321")
    = Ok200 {| login_message := lit "Login successful";
               login_user := public_profile Sample.bob;
               login_contacts := [public_profile Sample.ada] |}.
Proof.
  split; [|split].
  - apply (proj1 (login_outcomes _ _ _)).
    intros u Hu.
    apply elem_of_cons in Hu as [->|Hu]; [by_computing|].
    apply list_elem_of_singleton in Hu as ->. by_computing.
  - apply (proj2 (login_outcomes _ _ _) [Sample.ada] Sample.bob []).
    + reflexivity.
    + intros u ->%list_elem_of_singleton. by_computing.
    + reflexivity.
    + by_computing.
  - apply (proj2 (login_outcomes _ _ _) [Sample.ada] Sample.bob []).
    + reflexivity.
    + intros u ->%list_elem_of_singleton. by_computing.
    + reflexivity.
    + reflexivity.
    + intros u Hu. by apply elem_of_nil in Hu.
Defined.

Lemma find_same_to_login caller (users users' : list user) :
  Forall2 (same_to_login caller) users users' →
  match find (λ u, str_eqb (mobile_number u) caller) users,
        find (λ u, str_eqb (mobile_number u) caller) users' with
  | Some u, Some v => public_profile u = public_profile v ∧ mpin u = mpin v
  | None, None => True
  | _, _ => False
  end.
Proof.
  induction 1 as [|u v users users' (Hm & Hn & Hp) _ IH]; simpl; [done|].
  rewrite <- Hm.
  destruct (str_eqb (mobile_number u) caller) eqn:E; [|exact IH].
  apply str_eqb_true in E. split; [|auto].
  unfold public_profile. by rewrite Hm, Hn.
Qed.

Lemma contacts_same_to_login caller (users users' : list user) :
  Forall2 (same_to_login caller) users users' →
  public_profile <$> filter (λ u, mobile_number u ≠ caller) users
  = public_profile <$> filter (λ u, mobile_number u ≠ caller) users'.
Proof.
  induction 1 as [|u v users users' (Hm & Hn & Hp) _ IH]; [done|].
  destruct (decide (mobile_number u = caller)) as [Hu|Hu].
  - rewrite !filter_cons_False; [done | |]; intros H; apply H; congruence.
  - rewrite !filter_cons_True by congruence. rewrite !fmap_cons.
    rewrite IH. f_equal. unfold public_profile. by rewrite Hm, Hn.
Qed.

(** C10.  The login response depends on no password hash, e-mail address
    or wallet, and on no MPIN but the caller's: two directories whose
    users agree pairwise on number and name, and on the MPIN where the
    number is the one supplied, get the same response, whichever of 404,
    401 and 200 it is. *)
Theorem login_hides_secrets (users users' : list user)
    (mobile mpin' : jsstring) :
  Forall2 (same_to_login mobile) users users' →
  login users mobile mpin' = login users' mobile mpin'.
Proof.
  intros Hsame. unfold login.
  pose proof (find_same_to_login _ _ _ Hsame) as Hfind.
  pose proof (contacts_same_to_login _ _ _ Hsame) as Hcontacts.
  destruct (find _ users) as [u|], (find _ users') as [v|]; try done.
  destruct Hfind as [Hprofile Hmpin]. rewrite <- Hmpin.
  destruct (negb (str_eqb (mpin u) mpin')); [done|].
  unfold public_profile in *. by rewrite Hprofile, Hcontacts.
Qed.

(** Ada logs in to two directories that differ in her e-mail address,
    password hash and wallet, and in Bob's MPIN. *)
Lemma login_hides_secrets_witness :
  login [Sample.ada; Sample.bob] (lit "5550100") (lit "1234")
  = login [Sample.ada'; Sample.bob'] (lit "5550100") (lit "1234").
Proof.
  apply login_hides_secrets.
  repeat constructor; simpl; intros H; exfalso; revert H;
    by_computing.
Defined.

Lemma signup_keeps_wallets sha256_hex users m n e p mp :
  wallets_at_zero users →
  wallets_at_zero (signup sha256_hex users m n e p mp).2.
Proof.
  intros Hzero. unfold signup.
  destruct (find _ users); simpl; [done|].
  destruct (hashPassword sha256_hex p); simpl; [|done].
  apply Forall_app. split; [done|]. by repeat constructor.
Qed.

Section Servers.

Variable sha256_hex : jsstring → jsstring.

Lemma status_handle_keeps_wallets st req :
  wallets_at_zero (StatusServer.users st) →
  wallets_at_zero
    (StatusServer.users (StatusServer.handle sha256_hex st req).2).
Proof.
  intros Hzero. destruct req as [form| |id status|m n e p mp|m p]; simpl.
  - by destruct (StatusServer.postReport _ form).
  - done.
  - by destruct (StatusServer.putStatus _ id status).
  - pose proof (signup_keeps_wallets sha256_hex _ m n e p mp Hzero) as H.
    by destruct (signup sha256_hex _ m n e p mp).
  - done.
Qed.

Lemma status_serve_keeps_wallets reqs st :
  wallets_at_zero (StatusServer.users st) →
  wallets_at_zero (StatusServer.users (StatusServer.serve sha256_hex st reqs)).
Proof.
  revert st. induction reqs as [|req reqs IH]; intros st Hzero; [done|].
  apply IH. by apply status_handle_keeps_wallets.
Qed.

Lemma prediction_handle_keeps_wallets st req :
  wallets_at_zero (PredictionServer.users st) →
  wallets_at_zero
    (PredictionServer.users (PredictionServer.handle sha256_hex st req).2).
Proof.
  intros Hzero. destruct req as [form answers| |m n e p mp|m p]; simpl.
  - by destruct (PredictionServer.postReport _ form answers).
  - done.
  - pose proof (signup_keeps_wallets sha256_hex _ m n e p mp Hzero) as H.
    by destruct (signup sha256_hex _ m n e p mp).
  - done.
Qed.

Lemma prediction_serve_keeps_wallets reqs st :
  wallets_at_zero (PredictionServer.users st) →
  wallets_at_zero
    (PredictionServer.users (PredictionServer.serve sha256_hex st reqs)).
Proof.
  revert st. induction reqs as [|req reqs IH]; intros st Hzero; [done|].
  apply IH. by apply prediction_handle_keeps_wallets.
Qed.

Lemma signup_appends users m n e p mp :
  users `prefix_of` (signup sha256_hex users m n e p mp).2.
Proof.
  unfold signup. destruct (find _ users); simpl; [done|].
  destruct (hashPassword sha256_hex p); simpl; [|done].
  by apply prefix_app_r.
Qed.

Lemma status_handle_appends st req :
  StatusServer.users st
  `prefix_of` StatusServer.users (StatusServer.handle sha256_hex st req).2.
Proof.
  destruct req as [form| |id status|m n e p mp|m p]; simpl.
  - by destruct (StatusServer.postReport _ form).
  - done.
  - by destruct (StatusServer.putStatus _ id status).
  - pose proof (signup_appends (StatusServer.users st) m n e p mp) as H.
    by destruct (signup sha256_hex _ m n e p mp).
  - done.
Qed.

Lemma prediction_handle_appends st req :
  PredictionServer.users st
  `prefix_of` PredictionServer.users
                (PredictionServer.handle sha256_hex st req).2.
Proof.
  destruct req as [form answers| |m n e p mp|m p]; simpl.
  - by destruct (PredictionServer.postReport _ form answers).
  - done.
  - pose proof (signup_appends (PredictionServer.users st) m n e p mp) as H.
    by destruct (signup sha256_hex _ m n e p mp).
  - done.
Qed.

(** C9.  Whatever requests either server has served since it started
    (sign-ups, logins, report submissions, report reads, and status
    updates where the route exists), every stored user's wallet holds
    the 0 it was given at sign-up; and no request changes a stored
    record: it leaves the directory as it was or appends to it. *)
Theorem wallet_amount_stays_zero :
  (∀ st req,
     StatusServer.users st
     `prefix_of` StatusServer.users (StatusServer.handle sha256_hex st req).2)
  ∧ (∀ st req,
       PredictionServer.users st
       `prefix_of` PredictionServer.users
                     (PredictionServer.handle sha256_hex st req).2)
  ∧ (∀ existing reqs,
     wallets_at_zero
       (StatusServer.users
          (StatusServer.serve sha256_hex (StatusServer.startup existing) reqs)))
  ∧ (∀ existing reqs,
       wallets_at_zero
         (PredictionServer.users
            (PredictionServer.serve sha256_hex
               (PredictionServer.startup existing) reqs))).
Proof.
  split; [apply status_handle_appends|].
  split; [apply prediction_handle_appends|].
  split; intros existing reqs.
  - apply status_serve_keeps_wallets. constructor.
  - apply prediction_serve_keeps_wallets. constructor.
Qed.

End Servers.

End DirectoryFacts.

(** ** The report store *)

Module StoreFacts.
Import JsFacts.

Lemma terminated_shape s :
  terminated s = true →
  ∃ pre c, s = pre ++ [c; LF] ∧ is_whitespace c = false.
Proof.
  unfold terminated. intros H.
  destruct (rev s) as [|l [|c r]] eqn:E; try done.
  apply andb_true_iff in H as [Hl Hc].
  apply N.eqb_eq in Hl as ->. apply negb_true_iff in Hc.
  exists (rev r), c. split; [|done].
  rewrite <- (rev_involutive s), E. simpl. by rewrite <- app_assoc.
Qed.

Lemma terminated_intro pre c :
  is_whitespace c = false → terminated (pre ++ [c; LF]) = true.
Proof.
  intros Hc. unfold terminated. rewrite rev_app_distr. simpl.
  by rewrite Hc.
Qed.

Lemma LF_is_whitespace : is_whitespace LF = true.
Proof. done. Qed.

Lemma trim_terminated pre c :
  is_whitespace c = false → trim (pre ++ [c; LF]) = trimStart pre ++ [c].
Proof.
  intros Hc. unfold trim.
  rewrite (trimStart_app_text _ _ _ Hc), (trimEnd_app_text _ _ _ Hc).
  by rewrite trimEnd_LF.
Qed.

(** Appending a line to a terminated file appends it to the trimmed
    text. *)
Lemma trim_append store row :
  terminated store = true → ends_in_text row →
  trim (store ++ row ++ [LF]) = trim store ++ LF :: row.
Proof.
  intros (pre & c & -> & Hc)%terminated_shape (r & d & -> & Hd).
  rewrite (trim_terminated _ _ Hc). unfold trim.
  rewrite <- !app_assoc. simpl.
  rewrite (trimStart_app_text _ _ _ Hc).
  replace (trimStart pre ++ c :: LF :: r ++ [d; LF])
    with ((trimStart pre ++ c :: LF :: r) ++ d :: [LF])
    by (by rewrite <- app_assoc).
  rewrite (trimEnd_app_text _ _ _ Hd), trimEnd_LF.
  by rewrite <- !app_assoc.
Qed.

Lemma readLines_append store row :
  terminated store = true → ends_in_text row → LF ∉ row →
  readLines (store ++ row ++ [LF]) = readLines store ++ [row].
Proof.
  intros Hstore Hrow Hline. unfold readLines.
  rewrite (trim_append _ _ Hstore Hrow), split_app_sep.
  by rewrite (split_no_sep _ _ Hline).
Qed.

Lemma terminated_append store row :
  ends_in_text row → terminated (store ++ row ++ [LF]) = true.
Proof.
  intros (r & d & -> & Hd).
  replace (store ++ (r ++ [d]) ++ [LF]) with ((store ++ r) ++ [d; LF])
    by (by rewrite <- !app_assoc).
  by apply terminated_intro.
Qed.

(** *** The digits of an id *)

Lemma digits_range d : Forall (λ c, (48 ≤ c ≤ 57)%N) (digits d).
Proof. induction d; simpl; constructor; (lia || done). Qed.

Lemma toString_no_unit c n : (c < 48)%N → c ∉ toString n.
Proof.
  intros Hc Hin. unfold toString in Hin.
  pose proof (digits_range (Nat.to_uint n)) as Hall.
  rewrite Forall_forall in Hall. apply Hall in Hin. lia.
Qed.

Lemma toString_plain n : plain (toString n).
Proof. split; by apply toString_no_unit. Qed.

Lemma first_column_join x rest :
  COMMA ∉ x → rest ≠ [] → first_column (join [COMMA] (x :: rest)) = Some x.
Proof.
  intros Hx Hrest. unfold first_column.
  destruct rest as [|y rest]; [done|].
  rewrite join_cons. change (x ++ [COMMA] ++ ?t) with (x ++ COMMA :: t).
  by rewrite split_app_sep, (split_no_sep _ _ Hx).
Qed.

(** *** Texts that start and end with a character that is not white space *)

Lemma join_ends_in_text sep arr x :
  ends_in_text x → ends_in_text (join sep (arr ++ [x])).
Proof.
  intros (r & d & -> & Hd). destruct arr as [|y arr].
  - exists r, d. done.
  - rewrite join_app by done. simpl.
    exists (join sep (y :: arr) ++ sep ++ r), d.
    by rewrite <- !app_assoc.
Qed.

Lemma ends_in_text_check s :
  match rev s with
  | d :: _ => negb (is_whitespace d)
  | [] => false
  end = true →
  ends_in_text s.
Proof.
  intros H. destruct (rev s) as [|d r] eqn:E; [done|].
  exists (rev r), d. split; [|by apply negb_true_iff].
  by rewrite <- (rev_involutive s), E.
Qed.

Lemma trim_cases s :
  trim s = []
  ∨ (∃ c r, trim s = c :: r ∧ is_whitespace c = false)
    ∧ ends_in_text (trim s).
Proof.
  unfold trim. destruct (trimStart_head s) as [->|(c & r & -> & Hc)].
  - by left.
  - right. pose proof (trimEnd_app_text [] c r Hc) as Hend. simpl in Hend.
    split; [rewrite Hend; eauto|].
    destruct (trimEnd_last (c :: r)) as [Hnil|(r' & d & Hr & Hd)].
    + by rewrite Hend in Hnil.
    + by exists r', d.
Qed.

Lemma trim_written t :
  (∃ c r, t = c :: r ∧ is_whitespace c = false) → ends_in_text t →
  trim (t ++ [LF]) = t.
Proof.
  intros (c & r & Ht & Hc) (r' & d & Ht' & Hd). unfold trim.
  rewrite Ht. simpl. rewrite Hc. rewrite app_comm_cons, <- Ht, Ht'.
  rewrite <- app_assoc. simpl.
  by rewrite (trimEnd_app_text _ _ _ Hd), trimEnd_LF.
Qed.

Lemma split_head_text sep c r :
  c ≠ sep → ∃ p ps, split sep (c :: r) = (c :: p) :: ps.
Proof.
  intros Hc. simpl. destruct (N.eqb_spec c sep) as [|_]; [done|].
  pose proof (split_not_nil sep r). destruct (split sep r); [done|]. eauto.
Qed.

Lemma split_last_text sep r d :
  d ≠ sep → ∃ ps p, split sep (r ++ [d]) = ps ++ [p ++ [d]].
Proof.
  intros Hd. induction r as [|c r (ps & p & IH)]; simpl.
  - destruct (N.eqb_spec d sep) as [|_]; [done|]. by exists [], [].
  - rewrite IH. destruct (N.eqb_spec c sep) as [->|_].
    + by exists ([] :: ps), p.
    + destruct ps as [|q ps]; simpl.
      * by exists [], (c :: p).
      * by exists ((c :: q) :: ps), p.
Qed.

Lemma split_pieces_other sep c s :
  c ∉ s → Forall (λ piece, c ∉ piece) (split sep s).
Proof.
  induction s as [|x s IH]; intros Hs; simpl.
  - repeat constructor. apply not_elem_of_nil.
  - apply not_elem_of_cons in Hs as [Hx Hs]. specialize (IH Hs).
    destruct (N.eqb x sep).
    + constructor; [apply not_elem_of_nil | done].
    + destruct (split sep s) as [|p ps].
      * repeat constructor. by intros ->%list_elem_of_singleton.
      * inversion IH; subst. constructor; [|done].
        apply not_elem_of_cons. done.
Qed.

Lemma join_head sep c p rest :
  ∃ r, join sep ((c :: p) :: rest) = c :: r.
Proof. destruct rest; simpl; eauto. Qed.


End StoreFacts.

(** ** Texts as a file stores them *)

Module EncodingFacts.
Import JsFacts StoreFacts.

Lemma toWellFormed_text c s :
  is_surrogate c = false → toWellFormed (c :: s) = c :: toWellFormed s.
Proof.
  unfold is_surrogate. intros [Hh Hl]%orb_false_iff. simpl.
  by rewrite Hh, Hl.
Qed.

Lemma toWellFormed_app_sep sep b : ∀ a,
  is_surrogate sep = false →
  toWellFormed (a ++ sep :: b) = toWellFormed a ++ sep :: toWellFormed b.
Proof.
  intros a Hsep.
  assert (is_low_surrogate sep = false) as Hlow
    by (unfold is_surrogate in Hsep; by apply orb_false_iff in Hsep as [_ ?]).
  remember (length a) as n eqn:Hn. revert a Hn.
  induction n as [n IH] using lt_wf_ind. intros a ->.
  destruct a as [|c a]; [by apply toWellFormed_text|].
  cbn [app toWellFormed].
  destruct (is_high_surrogate c).
  - destruct a as [|d a]; cbn [app].
    + rewrite Hlow. by rewrite toWellFormed_text.
    + destruct (is_low_surrogate d).
      * rewrite (IH (length a)); [done | simpl; lia | done].
      * change (d :: a ++ sep :: b) with ((d :: a) ++ sep :: b).
        rewrite (IH (length (d :: a))); [done | simpl; lia | done].
  - destruct (is_low_surrogate c);
      rewrite (IH (length a)); (done || (simpl; lia)).
Qed.

(** Unit by unit, the stored text has the unit that was written or
    U+FFFD in the place of a surrogate. *)
Lemma toWellFormed_units s :
  Forall2 (λ c c', c' = c ∨ (c' = REPLACEMENT ∧ is_surrogate c = true))
    s (toWellFormed s).
Proof.
  remember (length s) as n eqn:Hn. revert s Hn.
  induction n as [n IH] using lt_wf_ind. intros s ->.
  destruct s as [|c s]; [constructor|].
  cbn [toWellFormed]. unfold is_surrogate.
  destruct (is_high_surrogate c) eqn:Hc.
  - destruct s as [|d s].
    + constructor; [right; by rewrite Hc | constructor].
    + destruct (is_low_surrogate d).
      * constructor; [by left|]. constructor; [by left|].
        apply (IH (length s)); [simpl; lia | done].
      * constructor; [right; by rewrite Hc|].
        apply (IH (length (d :: s))); [simpl; lia | done].
  - destruct (is_low_surrogate c) eqn:Hl.
    + constructor; [right; by rewrite Hc, Hl|].
      apply (IH (length s)); [simpl; lia | done].
    + constructor; [by left|].
      apply (IH (length s)); [simpl; lia | done].
Qed.

Lemma toWellFormed_length s : length (toWellFormed s) = length s.
Proof. symmetry. apply (Forall2_length _ _ _ (toWellFormed_units s)). Qed.

Lemma toWellFormed_no_unit c s :
  c ≠ REPLACEMENT → c ∉ s → c ∉ toWellFormed s.
Proof.
  intros Hc. induction (toWellFormed_units s) as [|x y s t Hxy _ IH].
  - done.
  - intros [Hx Hs]%not_elem_of_cons. apply not_elem_of_cons.
    split; [|by apply IH]. destruct Hxy as [->|[-> _]]; done.
Qed.

Lemma whitespace_is_text c : is_whitespace c = true → is_surrogate c = false.
Proof.
  unfold is_whitespace. intros Hc%bool_decide_eq_true.
  repeat (apply elem_of_cons in Hc as [->|Hc]; [done|]).
  by apply elem_of_nil in Hc.
Qed.

Lemma toWellFormed_text_app a b :
  Forall (λ c, is_surrogate c = false) a →
  toWellFormed (a ++ b) = a ++ toWellFormed b.
Proof.
  induction 1 as [|c a Hc _ IH]; [done|].
  cbn [app]. by rewrite toWellFormed_text, IH.
Qed.

Lemma text_well_formed s :
  Forall (λ c, is_surrogate c = false) s → well_formed s.
Proof.
  intros Hs. unfold well_formed.
  induction Hs as [|c s Hc _ IH]; [done|].
  by rewrite toWellFormed_text, IH.
Qed.

Lemma toWellFormed_app_text a b :
  Forall (λ c, is_surrogate c = false) b →
  toWellFormed (a ++ b) = toWellFormed a ++ b.
Proof.
  intros Hb. destruct Hb as [|c b Hc Hb]; [by rewrite !app_nil_r|].
  rewrite toWellFormed_app_sep by done.
  by rewrite (text_well_formed b Hb).
Qed.

Lemma toWellFormed_join sep arr :
  is_surrogate sep = false →
  toWellFormed (join [sep] arr) = join [sep] (toWellFormed <$> arr).
Proof.
  intros Hsep. induction arr as [|x arr IH]; [done|].
  destruct arr as [|y arr]; [done|].
  rewrite !fmap_cons, !join_cons.
  change (x ++ [sep] ++ ?t) with (x ++ sep :: t).
  rewrite toWellFormed_app_sep by done. rewrite IH.
  by rewrite !fmap_cons.
Qed.

Lemma toWellFormed_split sep s :
  is_surrogate sep = false → sep ≠ REPLACEMENT →
  split sep (toWellFormed s) = toWellFormed <$> split sep s.
Proof.
  intros Hsep Hne.
  rewrite <- (join_split sep s) at 1.
  rewrite toWellFormed_join by done.
  apply split_join.
  - pose proof (split_not_nil sep s). by destruct (split sep s).
  - apply Forall_fmap. eapply Forall_impl; [apply split_pieces|].
    intros piece Hpiece. by apply toWellFormed_no_unit.
Qed.

Lemma well_formed_split sep s :
  is_surrogate sep = false → sep ≠ REPLACEMENT →
  well_formed s → Forall well_formed (split sep s).
Proof.
  intros Hsep Hne Hs.
  pose proof (toWellFormed_split sep s Hsep Hne) as Hsplit.
  rewrite Hs in Hsplit.
  apply Forall_lookup. intros i piece Hpiece.
  assert ((toWellFormed <$> split sep s) !! i = Some piece) as Hi
    by (by rewrite <- Hsplit).
  rewrite list_lookup_fmap, Hpiece in Hi. by injection Hi.
Qed.

Lemma well_formed_join sep arr :
  is_surrogate sep = false →
  Forall well_formed arr → well_formed (join [sep] arr).
Proof.
  intros Hsep Harr. unfold well_formed. rewrite toWellFormed_join by done.
  f_equal. induction Harr as [|x arr Hx _ IH]; [done|].
  by rewrite fmap_cons, Hx, IH.
Qed.

Lemma trimStart_blanks s :
  ∃ blanks, s = blanks ++ trimStart s
    ∧ Forall (λ c, is_whitespace c = true) blanks.
Proof.
  induction s as [|c s (blanks & IH & Hblanks)]; [by exists []|].
  simpl. destruct (is_whitespace c) eqn:Hc.
  - exists (c :: blanks). split; [by rewrite IH at 1 | by constructor].
  - by exists [].
Qed.

Lemma trimEnd_blanks s :
  ∃ blanks, s = trimEnd s ++ blanks
    ∧ Forall (λ c, is_whitespace c = true) blanks.
Proof.
  destruct (trimStart_blanks (rev s)) as (blanks & Hs & Hblanks).
  exists (rev blanks). split.
  - unfold trimEnd. rewrite <- rev_app_distr, <- Hs. by rewrite rev_involutive.
  - by apply Forall_rev.
Qed.

Lemma well_formed_trim s : well_formed s → well_formed (trim s).
Proof.
  unfold well_formed, trim. intros Hs.
  destruct (trimStart_blanks s) as (pre & Hpre & Hblank).
  destruct (trimEnd_blanks (trimStart s)) as (post & Hpost & Hblank').
  rewrite Hpre, toWellFormed_text_app in Hs
    by (eapply Forall_impl; [done | apply whitespace_is_text]).
  apply app_inv_head in Hs.
  assert (toWellFormed (trimEnd (trimStart s) ++ post)
          = trimEnd (trimStart s) ++ post) as Hs'
    by (by rewrite <- Hpost).
  rewrite toWellFormed_app_text in Hs'
    by (eapply Forall_impl; [done | apply whitespace_is_text]).
  by apply app_inv_tail in Hs'.
Qed.

Lemma well_formed_lines store :
  well_formed store → Forall well_formed (readLines store).
Proof.
  intros Hstore. apply well_formed_split; [done | done |].
  by apply well_formed_trim.
Qed.

Lemma toWellFormed_idemp s : well_formed (toWellFormed s).
Proof.
  unfold well_formed.
  remember (length s) as n eqn:Hn. revert s Hn.
  induction n as [n IH] using lt_wf_ind. intros s ->.
  destruct s as [|c s]; [done|].
  cbn [toWellFormed].
  destruct (is_high_surrogate c) eqn:Hc.
  - destruct s as [|d s]; [done|].
    destruct (is_low_surrogate d) eqn:Hd.
    + cbn [toWellFormed]. rewrite Hc, Hd.
      by rewrite (IH (length s)); [| simpl; lia |].
    + rewrite toWellFormed_text by done.
      by rewrite (IH (length (d :: s))); [| simpl; lia |].
  - destruct (is_low_surrogate c) eqn:Hl.
    + rewrite toWellFormed_text by done.
      by rewrite (IH (length s)); [| simpl; lia |].
    + rewrite toWellFormed_text by (unfold is_surrogate; by rewrite Hc, Hl).
      by rewrite (IH (length s)); [| simpl; lia |].
Qed.

Lemma toWellFormed_storable status :
  StatusServer.storable status → StatusServer.storable (toWellFormed status).
Proof.
  intros [[Hcomma Hlf] Hlast]. split.
  - split; by apply toWellFormed_no_unit.
  - destruct (last status) as [c|] eqn:E.
    + apply last_Some in E as [r ->].
      pose proof (toWellFormed_units (r ++ [c])) as Hunits.
      apply Forall2_app_inv_l in Hunits as (r' & k & _ & Hk & ->).
      inversion Hk as [|? c' ? ? Hc Hnil]; subst.
      inversion Hnil; subst. rewrite last_snoc.
      destruct Hc as [->|[-> _]]; done.
    + apply last_None in E as ->. done.
Qed.

Lemma toString_well_formed n : well_formed (toString n).
Proof.
  apply text_well_formed.
  eapply Forall_impl; [apply digits_range|].
  intros c [Hlo Hhi]. unfold is_surrogate, is_high_surrogate, is_low_surrogate.
  rewrite !andb_false_intro1; [done | |]; apply N.leb_gt; lia.
Qed.

End EncodingFacts.

(** ** Appending reports *)

Module AppendFacts.
Import JsFacts StoreFacts.

Local Opaque lit toString.

(** Brings nested concatenations to the right-nested form. *)
Ltac reassoc :=
  repeat first [rewrite <- app_assoc | rewrite <- app_comm_cons].

Lemma lit_ends_in_text (s : string) r d :
  lit s = r ++ [d] → is_whitespace d = false → ends_in_text (lit s).
Proof. intros -> Hd. by exists r, d. Qed.

Lemma readLines_length_pos store : 0 < length (readLines store).
Proof. apply split_length_pos. Qed.

Lemma data_rows_succ store j :
  data_rows store + 1 + j = length (readLines store) + j.
Proof.
  unfold data_rows. pose proof (readLines_length_pos store). lia.
Qed.

Lemma report_id_lookup (m : jsobject) v :
  (<[lit "id" := v]> m) !! lit "id" = Some v.
Proof. apply lookup_insert_eq. Qed.

(** *** The server with the status column *)

Section Status.
Import StatusServer.

Lemma status_newRow_columns reportId filename form :
  image form = Some filename →
  newRow reportId filename form
  = join [COMMA] (columns reportId form) ++ [LF].
Proof.
  intros Himage. unfold newRow, columns, form_values. rewrite Himage.
  simpl. by reassoc.
Qed.

Lemma status_columns_end_in_text reportId form :
  ends_in_text (join [COMMA] (columns reportId form)).
Proof.
  unfold columns. rewrite app_comm_cons. apply join_ends_in_text.
  by apply (lit_ends_in_text _ (lit "not_resolve") 100%N).
Qed.

Lemma status_columns_one_line reportId form :
  Forall one_line (form_values form) →
  LF ∉ join [COMMA] (columns reportId form).
Proof.
  intros Hvalues. apply join_no_unit; [done|].
  unfold columns. constructor; [by apply toString_no_unit|].
  apply Forall_app. split; [done|].
  repeat constructor. by_computing.
Qed.

Lemma status_postReport_stored store form :
  is_Some (image form) →
  (postReport store form).2
  = store ++ join [COMMA] (columns (length (readLines store)) form) ++ [LF]
  ∧ response_id (postReport store form).1
    = Some (VNumber (Int (length (readLines store)))).
Proof.
  intros [filename Himage]. unfold postReport. rewrite Himage.
  cbn [fst snd]. split; [by rewrite (status_newRow_columns _ _ _ Himage)|].
  apply report_id_lookup.
Qed.

Lemma status_postReports_lines forms : ∀ store,
  terminated store = true → Forall (accepted_with one_line) forms →
  readLines (postReports store forms).2
  = readLines store
    ++ imap (λ j form,
               join [COMMA] (columns (length (readLines store) + j) form))
         forms
  ∧ response_id <$> (postReports store forms).1
    = imap (λ j _, Some (VNumber (Int (length (readLines store) + j)))) forms.
Proof.
  induction forms as [|form forms IH]; intros store Hstore Hforms.
  - simpl. by rewrite app_nil_r.
  - inversion Hforms as [|? ? [Himage Hvalues] Hrest]; subst.
    destruct (status_postReport_stored store form Himage) as [Hcsv Hid].
    cbn [postReports]. destruct (postReport store form) as [r csv].
    cbn [fst snd] in Hcsv, Hid.
    assert (readLines csv
            = readLines store
              ++ [join [COMMA] (columns (length (readLines store)) form)])
      as Hlines.
    { rewrite Hcsv. apply readLines_append; [done| |].
      - apply status_columns_end_in_text.
      - by apply status_columns_one_line. }
    assert (terminated csv = true) as Hcsv'.
    { rewrite Hcsv. apply terminated_append, status_columns_end_in_text. }
    destruct (IH csv Hcsv' Hrest) as [IHlines IHids].
    destruct (postReports csv forms) as [rs final]. cbn [fst snd] in *.
    rewrite fmap_cons, !imap_cons, IHlines, IHids, Hlines, Hid, length_app.
    rewrite <- app_assoc, Nat.add_0_r. cbn [length app].
    split.
    + do 2 f_equal. apply imap_ext. intros j x _. simpl.
      do 2 f_equal. lia.
    + f_equal. apply imap_ext. intros j x _. simpl.
      do 3 f_equal. lia.
Qed.

Lemma status_consecutive_after_terminated store forms :
  terminated store = true → Forall (accepted_with one_line) forms →
  consecutive_ids store forms.
Proof.
  intros Hstore Hforms.
  destruct (status_postReports_lines forms store Hstore Hforms) as [Hlines Hids].
  unfold consecutive_ids, new_row_ids. rewrite Hlines, Hids.
  rewrite drop_app_length. split.
  - rewrite fmap_imap. apply imap_ext. intros j form _.
    unfold compose, columns. cbn beta. rewrite data_rows_succ.
    apply first_column_join; [|done]. by apply toString_no_unit.
  - apply imap_ext. intros j form _. cbn beta. by rewrite data_rows_succ.
Qed.

End Status.

(** *** The server with the prediction service *)

Section Prediction.
Import PredictionServer.

Lemma level_text humanitarian severity :
  ends_in_text (getUrgencyLevel humanitarian severity)
  ∧ LF ∉ getUrgencyLevel humanitarian severity.
Proof.
  pose proof (UrgencyFacts.getUrgencyLevel_range humanitarian severity) as H.
  repeat (apply elem_of_cons in H as [->|H]);
    [| | | | | | by apply elem_of_nil in H];
    (split; [apply ends_in_text_check; by vm_compute
            | by_computing]).
Qed.

Lemma prediction_columns_end_in_text reportId form severity humanitarian disaster :
  ends_in_text
    (join [COMMA] (columns reportId form severity humanitarian disaster)).
Proof.
  unfold columns. rewrite app_comm_cons.
  change [severity; humanitarian; disaster;
          getUrgencyLevel humanitarian severity]
    with ([severity; humanitarian; disaster]
          ++ [getUrgencyLevel humanitarian severity]).
  rewrite app_assoc. apply join_ends_in_text, level_text.
Qed.

Lemma prediction_columns_one_line reportId form severity humanitarian disaster :
  Forall one_line (form_values form) →
  one_line severity → one_line humanitarian → one_line disaster →
  LF ∉ join [COMMA] (columns reportId form severity humanitarian disaster).
Proof.
  intros Hvalues Hs Hh Hd. apply join_no_unit; [done|].
  unfold columns. constructor; [by apply toString_no_unit|].
  apply Forall_app. split; [done|].
  repeat constructor; try done. apply level_text.
Qed.

Lemma prediction_postReport_stored store form severity humanitarian disaster :
  is_Some (image form) →
  let answers :=
    Predictions (Some severity) (Some humanitarian) (Some disaster) in
  (postReport store form answers).2
  = store
    ++ join [COMMA]
         (columns (length (readLines store)) form severity humanitarian
            disaster)
    ++ [LF]
  ∧ response_id (postReport store form answers).1
    = Some (VNumber (Int (length (readLines store)))).
Proof.
  intros [filename Himage]. unfold postReport. rewrite Himage.
  cbn [damage_label humanitarian_label text_label fst snd].
  split; [|apply report_id_lookup].
  unfold columns, form_values. rewrite Himage. simpl. by reassoc.
Qed.

Lemma prediction_postReports_lines forms : ∀ store,
  terminated store = true →
  Forall (λ fa, accepted_with one_line fa.1 ∧ answered_with one_line fa.2)
    forms →
  readLines (postReports store forms).2
  = readLines store
    ++ imap (λ j fa,
               join [COMMA]
                 (columns (length (readLines store) + j) fa.1
                    (default [] (damage_label fa.2))
                    (default [] (humanitarian_label fa.2))
                    (default [] (text_label fa.2))))
         forms
  ∧ response_id <$> (postReports store forms).1
    = imap (λ j _, Some (VNumber (Int (length (readLines store) + j)))) forms.
Proof.
  induction forms as [|[form answers] forms IH]; intros store Hstore Hforms.
  - simpl. by rewrite app_nil_r.
  - inversion Hforms as [|? ? Hhead Hrest]; subst.
    cbn [fst snd] in Hhead.
    destruct Hhead as [[Himage Hvalues] (s & h & d & -> & Hs & Hh & Hd)].
    destruct (prediction_postReport_stored store form s h d Himage) as [Hcsv Hid].
    cbn [postReports]. destruct (postReport store form _) as [r csv].
    cbn [fst snd] in Hcsv, Hid.
    assert (readLines csv
            = readLines store
              ++ [join [COMMA]
                    (columns (length (readLines store)) form s h d)])
      as Hlines.
    { rewrite Hcsv. apply readLines_append; [done| |].
      - apply prediction_columns_end_in_text.
      - by apply prediction_columns_one_line. }
    assert (terminated csv = true) as Hcsv'.
    { rewrite Hcsv. apply terminated_append, prediction_columns_end_in_text. }
    destruct (IH csv Hcsv' Hrest) as [IHlines IHids].
    destruct (postReports csv forms) as [rs final]. cbn [fst snd] in *.
    rewrite fmap_cons, !imap_cons, IHlines, IHids, Hlines, Hid, length_app.
    rewrite <- app_assoc, Nat.add_0_r. cbn [length app].
    split.
    + do 2 f_equal. apply imap_ext. intros j x _. simpl.
      do 2 f_equal. lia.
    + f_equal. apply imap_ext. intros j x _. simpl.
      do 3 f_equal. lia.
Qed.

Lemma prediction_consecutive_after_terminated store forms :
  terminated store = true →
  Forall (λ fa, accepted_with one_line fa.1 ∧ answered_with one_line fa.2)
    forms →
  consecutive_ids store forms.
Proof.
  intros Hstore Hforms.
  destruct (prediction_postReports_lines forms store Hstore Hforms) as [Hlines Hids].
  unfold consecutive_ids, new_row_ids. rewrite Hlines, Hids.
  rewrite drop_app_length. split.
  - rewrite fmap_imap. apply imap_ext. intros j form _.
    unfold compose, columns. cbn beta. rewrite data_rows_succ.
    apply first_column_join; [|done]. by apply toString_no_unit.
  - apply imap_ext. intros j form _. cbn beta. by rewrite data_rows_succ.
Qed.

End Prediction.

(** C4, amended.  When the file ends with a character that is not white
    space and one line feed, as every file does that the server created
    and appended to, and the values of the submitted forms hold no line
    feed (nor do the labels of the prediction service), then submitting
    N forms one after the other adds N rows whose ids are k+1, ..., k+N,
    for k the number of data rows before; from the file that holds the
    header line only, they are 1, ..., N.  This holds for both
    servers. *)
Theorem sequential_ids :
  (∀ store forms,
     terminated store = true → Forall (accepted_with one_line) forms →
     StatusServer.consecutive_ids store forms)
  ∧ (∀ forms,
       Forall (accepted_with one_line) forms →
       data_rows StatusServer.CSV_HEADER = 0
       ∧ StatusServer.consecutive_ids StatusServer.CSV_HEADER forms)
  ∧ (∀ store forms,
       terminated store = true →
       Forall (λ fa, accepted_with one_line fa.1
                     ∧ PredictionServer.answered_with one_line fa.2) forms →
       PredictionServer.consecutive_ids store forms)
  ∧ (∀ forms,
       Forall (λ fa, accepted_with one_line fa.1
                     ∧ PredictionServer.answered_with one_line fa.2) forms →
       data_rows PredictionServer.CSV_HEADER = 0
       ∧ PredictionServer.consecutive_ids PredictionServer.CSV_HEADER forms).
Proof.
  split; [|split; [|split]].
  - apply status_consecutive_after_terminated.
  - intros forms Hforms. split; [by vm_compute|].
    apply status_consecutive_after_terminated; [by vm_compute | done].
  - apply prediction_consecutive_after_terminated.
  - intros forms Hforms. split; [by vm_compute|].
    apply prediction_consecutive_after_terminated; [by vm_compute | done].
Qed.

Lemma flood_form_accepted : accepted_with one_line Sample.flood_form.
Proof.
  split; [by eexists|].
  unfold form_values, one_line.
  repeat constructor; by_computing.
Qed.

(** Two reports submitted to the new file of the status server, and one
    to the new file of the server with the prediction service. *)
Lemma sequential_ids_witness :
  StatusServer.consecutive_ids StatusServer.CSV_HEADER
    [Sample.flood_form; Sample.flood_form]
  ∧ PredictionServer.consecutive_ids PredictionServer.CSV_HEADER
      [(Sample.flood_form, Sample.critical)].
Proof.
  split.
  - apply (proj1 sequential_ids); [by vm_compute|].
    do 2 (constructor; [apply flood_form_accepted|]). constructor.
  - apply (proj1 (proj2 (proj2 sequential_ids))); [by vm_compute|].
    constructor; [|constructor]. split; [apply flood_form_accepted|].
    eexists _, _, _. split; [reflexivity|]. unfold one_line.
    repeat split; by_computing.
Defined.

(** C4 as stated fails: from the file with the header line only, a
    report whose description has two lines takes the id 1 and the next
    report the id 3; and from a file whose header line has no line feed
    after it, two reports both take the id 1. *)
Lemma sequential_ids_counterexample :
  ¬ StatusServer.consecutive_ids StatusServer.CSV_HEADER
      [Sample.two_line_form; Sample.flood_form]
  ∧ ¬ StatusServer.consecutive_ids Sample.unterminated_header
        [Sample.flood_form; Sample.flood_form].
Proof.
  split; intros [_ Hresponses]; vm_compute in Hresponses; congruence.
Qed.

End AppendFacts.

(** ** Updating the status of a report *)

Module UpdateFacts.
Import JsFacts StoreFacts EncodingFacts StatusServer.

Local Opaque lit.

Lemma existsb_imap_false {A B} (f : nat → A → B * bool) (l : list A) :
  (∀ i x, l !! i = Some x → (f i x).2 = false) →
  existsb snd (imap f l) = false.
Proof.
  revert f. induction l as [|x l IH]; intros f Hall; [done|].
  rewrite imap_cons. cbn [existsb]. rewrite (Hall 0 x eq_refl).
  apply IH. intros i y Hy. apply (Hall (S i) y Hy).
Qed.

Lemma existsb_imap_true {A B} (f : nat → A → B * bool) (l : list A) i x :
  l !! i = Some x → (f i x).2 = true → existsb snd (imap f l) = true.
Proof.
  revert f i. induction l as [|y l IH]; intros f i Hx Hf; [done|].
  rewrite imap_cons. cbn [existsb]. destruct i as [|i].
  - injection Hx as ->. by rewrite Hf.
  - rewrite (IH (f ∘ S) i Hx Hf). apply orb_true_r.
Qed.

Lemma find_is_Some {A} (f : A → bool) (l : list A) x :
  x ∈ l → f x = true → is_Some (find f l).
Proof.
  induction 1 as [x l|x y l _ IH]; intros Hf; simpl.
  - rewrite Hf. by eexists.
  - destruct (f y); [by eexists | by apply IH].
Qed.

Lemma updateLine_miss reportId status index line :
  index = 0 ∨ first_column line ≠ Some reportId →
  updateLine reportId status index line = (line, false).
Proof.
  intros Hmiss. unfold updateLine.
  destruct (decide (index = 0)) as [|Hindex]; [done|].
  destruct Hmiss as [|Hmiss]; [done|].
  by rewrite bool_decide_eq_false_2.
Qed.

Lemma updateLine_hit reportId status index line :
  1 ≤ index → first_column line = Some reportId →
  updateLine reportId status index line
  = (join [COMMA] (array_set (split COMMA line) 6 status), true).
Proof.
  intros Hindex Hhit. unfold updateLine.
  destruct (decide (index = 0)) as [|_]; [lia|].
  by rewrite bool_decide_eq_true_2.
Qed.

(** C6.  When no data row of the file has the given id in its first
    column, the status update answers 404 and the file is what it was:
    nothing is written. *)
Theorem putStatus_not_found (store reportId status : jsstring) :
  (∀ j line, 1 ≤ j → readLines store !! j = Some line →
     first_column line ≠ Some reportId) →
  putStatus store reportId status
  = (Fail 404 (lit "Report not found."), store)
  ∧ status_code (putStatus store reportId status).1 = 404.
Proof.
  intros Hnone. unfold putStatus.
  rewrite existsb_imap_false; [done|].
  intros j line Hline. rewrite updateLine_miss; [done|].
  destruct j as [|j]; [by left|]. right.
  apply (Hnone (S j) line); [lia | done].
Qed.

(** The id 2 in a file whose only report has the id 1. *)
Lemma putStatus_not_found_witness :
  putStatus Sample.one_report (lit "2") (lit "resolved")
  = (Fail 404 (lit "Report not found."), Sample.one_report).
Proof.
  apply (putStatus_not_found Sample.one_report (lit "2") (lit "resolved")).
  intros j line Hj Hline.
  destruct j as [|[|j]]; [lia | |]; vm_compute in Hline; [|done].
  injection Hline as <-. by vm_compute.
Defined.

Lemma seventh_column row status :
  length row = 7 →
  array_set row 6 status = <[6:=status]> row
  ∧ <[6:=status]> row = take 6 row ++ [status]
  ∧ take 6 row ≠ [].
Proof.
  intros Hrow. unfold array_set.
  destruct row as [|a [|b [|c [|d [|e [|f [|g [|h row]]]]]]]]; done.
Qed.

Lemma updated_line_ends_in_text row status :
  length row = 7 → storable status →
  ends_in_text (join [COMMA] (<[6:=status]> row)).
Proof.
  intros Hrow [_ Hlast].
  destruct (seventh_column row status Hrow) as (_ & -> & Hne).
  destruct (last status) as [c|] eqn:E.
  - apply join_ends_in_text.
    apply last_Some in E as [r ->]. by exists r, c.
  - apply last_None in E as ->. rewrite join_app by done.
    exists (join [COMMA] (take 6 row)), COMMA. by rewrite app_nil_r.
Qed.

Lemma updated_line_starts row status reportId :
  length row = 7 → row !! 0 = Some reportId →
  startsWith (reportId ++ [COMMA]) (join [COMMA] (<[6:=status]> row)) = true.
Proof.
  intros Hrow Hid.
  destruct row as [|a [|b [|c [|d [|e [|f [|g [|h row]]]]]]]]; try done.
  injection Hid as ->. cbn [insert list_insert]. rewrite join_cons.
  rewrite app_assoc. apply startsWith_app.
Qed.

(** The lines [lines.map] returns when row [i] is well formed and alone
    with its id. *)
Lemma updated_lines store reportId status i line :
  1 ≤ i → readLines store !! i = Some line →
  length (split COMMA line) = 7 → first_column line = Some reportId →
  no_other_row store reportId i →
  fst <$> imap (updateLine reportId status) (readLines store)
  = <[i:=join [COMMA] (<[6:=status]> (split COMMA line))]> (readLines store).
Proof.
  intros Hi Hline Hrow Hid Hother.
  pose proof (lookup_lt_Some _ _ _ Hline) as Hlt.
  apply list_eq. intros j. rewrite list_lookup_fmap, list_lookup_imap.
  destruct (decide (j = i)) as [->|Hj].
  - rewrite Hline, list_lookup_insert_eq by done.
    cbn [fmap option_fmap option_map].
    rewrite updateLine_hit by done. cbn [fst].
    by rewrite (proj1 (seventh_column _ status Hrow)).
  - rewrite list_lookup_insert_ne by done.
    destruct (readLines store !! j) as [l|] eqn:E; [|done].
    cbn [fmap option_fmap option_map]. rewrite updateLine_miss; [done|].
    destruct j as [|j]; [by left|]. right.
    apply (Hother (S j) l); [lia | done | done].
Qed.

(** The update of a well-formed row that is alone with its id, spelled
    out: the answer is built from the first line that starts with the id
    and a comma. *)
Lemma putStatus_unfolded store reportId status i line :
  1 ≤ i → readLines store !! i = Some line →
  length (split COMMA line) = 7 → first_column line = Some reportId →
  no_other_row store reportId i →
  putStatus store reportId status
  = (match find (startsWith (reportId ++ [COMMA]))
             (<[i:=join [COMMA] (<[6:=status]> (split COMMA line))]>
                (readLines store)) with
     | None => Fail 500 (lit "Failed to update report status.")
     | Some updatedReport =>
         let row := split COMMA updatedReport in
         Ok200 (report_json (VNumber (Number (row !! 0))) (cell (row !! 1))
                  (VNumber (Number (row !! 2))) (VNumber (Number (row !! 3)))
                  (cell (row !! 4)) (cell (row !! 5)) (cell (row !! 6)))
     end,
     writeFileSync
       (join [LF]
          (<[i:=join [COMMA] (<[6:=status]> (split COMMA line))]>
             (readLines store)) ++ [LF])).
Proof.
  intros Hi Hline Hrow Hid Hother.
  unfold putStatus.
  rewrite (updated_lines store reportId status i line) by done.
  rewrite (existsb_imap_true _ _ i line Hline); [|by rewrite updateLine_hit].
  cbn [negb]. by destruct (find _ _).
Qed.

Lemma fmap_well_formed (l : list jsstring) :
  Forall well_formed l → toWellFormed <$> l = l.
Proof.
  induction 1 as [|x l Hx _ IH]; [done|]. by rewrite fmap_cons, Hx, IH.
Qed.

(** What the file holds after the lines were written, when the file was
    read without a lone surrogate: the lines as they were, and in the
    updated row the status as UTF-8 keeps it. *)
Lemma written_lines store status i line :
  well_formed store → readLines store !! i = Some line →
  writeFileSync
    (join [LF]
       (<[i:=join [COMMA] (<[6:=status]> (split COMMA line))]>
          (readLines store)) ++ [LF])
  = join [LF]
      (<[i:=join [COMMA] (<[6:=toWellFormed status]> (split COMMA line))]>
         (readLines store)) ++ [LF].
Proof.
  intros Hstore Hline. unfold writeFileSync.
  pose proof (well_formed_lines store Hstore) as Hlines.
  assert (Forall well_formed (split COMMA line)) as Hrow.
  { apply well_formed_split; [done | done |].
    rewrite Forall_lookup in Hlines. by apply (Hlines i). }
  rewrite (toWellFormed_app_text _ [LF]) by (by repeat constructor).
  rewrite toWellFormed_join by done.
  rewrite list_fmap_insert, (fmap_well_formed _ Hlines).
  rewrite toWellFormed_join by done.
  by rewrite list_fmap_insert, (fmap_well_formed _ Hrow).
Qed.

Lemma putStatus_written store reportId status i line :
  well_formed store →
  1 ≤ i → readLines store !! i = Some line →
  length (split COMMA line) = 7 → first_column line = Some reportId →
  no_other_row store reportId i →
  let line' :=
    join [COMMA] (<[6:=toWellFormed status]> (split COMMA line)) in
  (putStatus store reportId status).2
  = join [LF] (<[i:=line']> (readLines store)) ++ [LF]
  ∧ status_code (putStatus store reportId status).1 = 200
  ∧ (storable status →
     readLines (join [LF] (<[i:=line']> (readLines store)) ++ [LF])
     = <[i:=line']> (readLines store)).
Proof.
  intros Hstore Hi Hline Hrow Hid Hother line'.
  pose proof (lookup_lt_Some _ _ _ Hline) as Hlt.
  rewrite (putStatus_unfolded store reportId status i line) by done.
  cbn [fst snd].
  assert (is_Some (find (startsWith (reportId ++ [COMMA]))
            (<[i:=join [COMMA] (<[6:=status]> (split COMMA line))]>
               (readLines store)))) as [found ->].
  { apply (find_is_Some _ _
             (join [COMMA] (<[6:=status]> (split COMMA line)))).
    - apply list_elem_of_lookup. exists i. by apply list_lookup_insert_eq.
    - by apply updated_line_starts. }
  split; [by apply written_lines|]. split; [done|].
  intros Hstatus%toWellFormed_storable.
  unfold readLines at 1.
  assert (LF ∉ line') as Hline'.
  { apply join_no_unit; [done|]. apply Forall_insert; [|apply Hstatus].
    apply split_pieces_other.
    pose proof (split_pieces LF (trim store)) as Hpieces.
    rewrite Forall_lookup in Hpieces. apply (Hpieces i line Hline). }
  assert (ends_in_text line') as Hends
    by (by apply updated_line_ends_in_text).
  destruct (trim_cases store) as [Hnil|[(c & r & Hc & Hcws) (r' & d & Hd & Hdws)]].
  { unfold readLines in Hlt. rewrite Hnil in Hlt. simpl in Hlt. lia. }
  assert (c ≠ LF) as HcLF by (by intros ->).
  assert (d ≠ LF) as HdLF by (by intros ->).
  destruct (split_head_text LF c r HcLF) as (p & ps & Hhead).
  destruct (split_last_text LF r' d HdLF) as (qs & q & Htail).
  rewrite <- Hc in Hhead. rewrite <- Hd in Htail.
  fold (readLines store) in Hhead, Htail.
  rewrite trim_written.
  + apply split_join.
    * rewrite Hhead. by destruct i.
    * apply Forall_insert; [apply split_pieces | done].
  + rewrite Hhead. destruct i as [|i]; [lia|].
    change (<[S i:=line']> ((c :: p) :: ps))
      with ((c :: p) :: <[i:=line']> ps).
    destruct (join_head [LF] c p (<[i:=line']> ps)) as [t ->]. eauto.
  + rewrite Htail. rewrite Htail in Hlt.
    rewrite length_app in Hlt. cbn [length] in Hlt.
    destruct (decide (i < length qs)) as [Hin|Hlast].
    * rewrite insert_app_l by done. apply join_ends_in_text.
      by exists q, d.
    * rewrite insert_app_r_alt by lia.
      replace (i - length qs) with 0 by lia.
      change (<[0:=line']> [q ++ [d]]) with [line'].
      by apply join_ends_in_text.
Qed.

(** *** The rows of the file text *)

Lemma split_app sep b : ∀ a,
  split sep (a ++ sep :: b)
  = match split sep b with
    | piece :: pieces => split sep a ++ piece :: pieces
    | [] => split sep a
    end.
Proof.
  pose proof (split_not_nil sep b) as Hb.
  destruct (split sep b) as [|piece pieces] eqn:E; [done|].
  induction a as [|c a IH]; simpl.
  - by rewrite N.eqb_refl, E.
  - destruct (N.eqb c sep); [by rewrite IH|]. rewrite IH.
    pose proof (split_not_nil sep a). by destruct (split sep a).
Qed.

Lemma file_rows_written lines :
  lines ≠ [] → Forall (λ line, LF ∉ line) lines →
  file_rows (join [LF] lines ++ [LF]) = lines ++ [[]].
Proof.
  intros Hne Hlines. unfold file_rows.
  rewrite (split_app LF []). cbn [split]. by rewrite split_join.
Qed.

Lemma tight_lines store :
  tight store → store = join [LF] (readLines store) ++ [LF].
Proof. intros Hstore. unfold readLines. by rewrite join_split. Qed.

Lemma tight_rows store :
  tight store → file_rows store = readLines store ++ [[]].
Proof.
  intros Hstore. rewrite (tight_lines store Hstore) at 1.
  apply file_rows_written; [apply split_not_nil | apply split_pieces].
Qed.

(** C2, amended.  The file text has no white space before its first
    line or at the end of its last line, ends with one line feed and
    holds no lone surrogate; row [i] is a data row of seven columns that
    has the given id, and no other data row has that id; the new status
    holds no comma, no line feed and no lone surrogate.  Then the update
    answers 200 and writes a text in which the seventh column of that
    row is the new status, while the other columns of the row, every
    other row and the header row are, unit by unit, what they were. *)
Theorem status_update_frame (store reportId status : jsstring) (i : nat) :
  tight store → well_formed store →
  well_formed_row store reportId i → no_other_row store reportId i →
  plain status → well_formed status →
  updates_only_status store reportId status i
  ∧ status_code (putStatus store reportId status).1 = 200.
Proof.
  intros Htight Hstore (Hi & line & Hline & Hrow & Hid) Hother
    [Hcomma Hlf] Hstatus.
  destruct (putStatus_written store reportId status i line Hstore Hi Hline
              Hrow Hid Hother) as (Hwritten & Hcode & _).
  rewrite Hstatus in Hwritten.
  pose proof (lookup_lt_Some _ _ _ Hline) as Hlt.
  split; [|done]. unfold updates_only_status. cbv zeta.
  rewrite Hwritten, (tight_rows store Htight).
  rewrite file_rows_written.
  - rewrite <- insert_app_l by done.
    split; [apply length_insert|].
    split; [apply list_lookup_insert_ne; lia|].
    split; [intros j Hj; by apply list_lookup_insert_ne|].
    eexists line, _.
    split; [by apply lookup_app_l_Some|].
    split; [apply list_lookup_insert_eq; rewrite length_app; lia|].
    rewrite split_join.
    + split; [apply list_lookup_insert_eq; lia|].
      split; [apply length_insert|].
      intros c Hc. by apply list_lookup_insert_ne.
    + pose proof (split_not_nil COMMA line). by destruct (split COMMA line).
    + apply Forall_insert; [apply split_pieces | done].
  - pose proof (split_not_nil LF (trim store)) as Hne.
    unfold readLines. by destruct (split LF (trim store)), i.
  - apply Forall_insert; [apply split_pieces|].
    apply join_no_unit; [done|]. apply Forall_insert; [|done].
    apply split_pieces_other.
    pose proof (split_pieces LF (trim store)) as Hpieces.
    rewrite Forall_lookup in Hpieces. apply (Hpieces i line Hline).
Qed.

Lemma one_report_row :
  well_formed_row Sample.one_report (lit "1") 1.
Proof.
  split; [lia|].
  exists (lit "1,1700000000000-flood.png,12.9,77.6,MG Road,Flood,not_resolved").
  split; [by vm_compute|]. split; by vm_compute.
Qed.

(** The scenario of the specification: the report 1 is set to resolved. *)
Lemma status_update_frame_witness :
  updates_only_status Sample.one_report (lit "1") (lit "resolved") 1
  ∧ status_code (putStatus Sample.one_report (lit "1") (lit "resolved")).1
    = 200.
Proof.
  apply status_update_frame.
  - by vm_compute.
  - by vm_compute.
  - apply one_report_row.
  - intros j line Hj Hne Hline.
    destruct j as [|[|j]]; [lia | done |]. vm_compute in Hline. done.
  - split; by_computing.
  - by vm_compute.
Defined.

Lemma row_of_the_report (store : jsstring) line :
  readLines store !! 1 = Some line →
  length (split COMMA line) = 7 → first_column line = Some (lit "1") →
  well_formed_row store (lit "1") 1.
Proof. intros Hline Hrow Hid. split; [lia|]. by exists line. Qed.

(** C2 as stated fails, in the text of the file itself.  A status with a
    comma is stored as two columns, and a status with a line feed as two
    rows; a status that is half of a surrogate pair is stored as U+FFFD;
    with two rows of the same id both rows change; the blank at the end
    of the last row is lost when another row is updated, and so is a
    byte-order mark before the header. *)
Lemma status_update_frame_counterexample :
  (well_formed_row Sample.one_report (lit "1") 1
   ∧ ¬ updates_only_status Sample.one_report (lit "1")
         (lit "resolved, team sent") 1)
  ∧ (well_formed_row Sample.one_report (lit "1") 1
     ∧ ¬ updates_only_status Sample.one_report (lit "1")
           (lit "resolved" ++ [LF] ++ lit "closed") 1)
  ∧ (well_formed_row Sample.one_report (lit "1") 1
     ∧ ¬ updates_only_status Sample.one_report (lit "1")
           Sample.half_a_pair 1)
  ∧ (well_formed_row Sample.twice_the_id (lit "1") 1
     ∧ ¬ updates_only_status Sample.twice_the_id (lit "1") (lit "resolved") 1)
  ∧ (well_formed_row Sample.blank_at_the_end (lit "1") 1
     ∧ ¬ updates_only_status Sample.blank_at_the_end (lit "1")
           (lit "resolved") 1)
  ∧ (well_formed_row Sample.marked (lit "1") 1
     ∧ ¬ updates_only_status Sample.marked (lit "1") (lit "resolved") 1).
Proof.
  split; [|split; [|split; [|split; [|split]]]];
    (split; [eapply row_of_the_report; by vm_compute|]);
    unfold updates_only_status.
  - intros (_ & _ & _ & line & line' & _ & Hafter & Hstatus & _).
    vm_compute in Hafter. injection Hafter as <-.
    vm_compute in Hstatus. done.
  - intros (Hlength & _). vm_compute in Hlength. done.
  - intros (_ & _ & _ & line & line' & _ & Hafter & Hstatus & _).
    vm_compute in Hafter. injection Hafter as <-.
    vm_compute in Hstatus. done.
  - intros (_ & _ & Hothers & _).
    specialize (Hothers 2 ltac:(lia)). vm_compute in Hothers. done.
  - intros (_ & _ & Hothers & _).
    specialize (Hothers 2 ltac:(lia)). vm_compute in Hothers. done.
  - intros (_ & Hheader & _). vm_compute in Hheader. done.
Qed.

End UpdateFacts.

(** ** Reading the reports *)

Module ReadFacts.
Import JsFacts StoreFacts Traffic.

Local Opaque lit toString.

Lemma assign_lookup_same (m : jsobject) key v :
  key ≠ lit "__proto__" → assign m key v !! key = Some v.
Proof.
  intros Hkey. unfold assign.
  rewrite (proj2 (str_eqb_false _ _) Hkey). apply lookup_insert_eq.
Qed.

Lemma assign_lookup_other (m : jsobject) key other v :
  other ≠ key → assign m key v !! other = m !! other.
Proof.
  intros Hother. unfold assign.
  destruct (str_eqb key (lit "__proto__")); [done|].
  by apply lookup_insert_ne.
Qed.

Lemma forEach_header_absent headers : ∀ index row (report : jsobject) key,
  key ∉ headers →
  forEach_header headers index row report !! key = report !! key.
Proof.
  induction headers as [|header headers IH]; intros index row report key Hkey;
    [done|].
  apply not_elem_of_cons in Hkey as [Hne Hkey]. simpl.
  rewrite IH by done. by apply assign_lookup_other.
Qed.

Lemma forEach_header_lookup headers :
  ∀ index row (report : jsobject) idx header,
  headers !! idx = Some header → header ≠ lit "__proto__" →
  (∀ idx', idx < idx' → headers !! idx' ≠ Some header) →
  forEach_header headers index row report !! header
  = Some (field_value header (row !! (index + idx))).
Proof.
  induction headers as [|h headers IH];
    intros index row report idx header Hidx Hproto Hlast; [done|].
  destruct idx as [|idx]; simpl in *.
  - injection Hidx as ->. rewrite forEach_header_absent.
    + rewrite Nat.add_0_r. by apply assign_lookup_same.
    + intros (idx' & Hin)%list_elem_of_lookup.
      apply (Hlast (S idx')); [lia | done].
  - rewrite (IH (S index) row _ idx header Hidx Hproto).
    + do 3 f_equal. lia.
    + intros idx' Hlt. apply (Hlast (S idx')). lia.
Qed.

Lemma assign_dom (m : jsobject) key v :
  dom (assign m key v)
  = if str_eqb key (lit "__proto__") then dom m else {[key]} ∪ dom m.
Proof.
  unfold assign. destruct (str_eqb key (lit "__proto__")); [done|].
  apply dom_insert_L.
Qed.

Lemma forEach_header_dom headers : ∀ index row (report : jsobject),
  dom (forEach_header headers index row report)
  = dom report
    ∪ list_to_set (filter (λ header, header ≠ lit "__proto__") headers).
Proof.
  induction headers as [|header headers IH]; intros index row report.
  - rewrite filter_nil. cbn [forEach_header list_to_set foldr].
    by rewrite (right_id_L ∅ (∪)).
  - cbn [forEach_header]. rewrite IH, assign_dom.
    destruct (str_eqb header (lit "__proto__")) eqn:E.
    + apply str_eqb_true in E.
      rewrite filter_cons_False by (intros H; by apply H). done.
    + apply str_eqb_false in E.
      rewrite filter_cons_True by done. rewrite list_to_set_cons.
      rewrite (comm_L (∪) {[header]} (dom report)).
      by rewrite <- (assoc_L (∪)).
Qed.

Lemma missing_cell header :
  field_value header None
  = (if is_numeric_header header then VNumber (Number None) else VUndefined)
  ∧ stringify (field_value header None)
    = (if is_numeric_header header then Some JNull else None).
Proof. unfold field_value. by destruct (is_numeric_header header). Qed.

(** C5, amended.  Reading the reports never fails on the number of
    columns: for every file it answers 200 with one record per data row.
    The keys of a record are the header names ([__proto__] excepted) and
    nothing else, so that the cells of a row past the last header are
    dropped.  Under each header name (the last of its columns when the
    name is repeated) the record holds the cell of that column of the
    row, and the response carries what [res.json] sends of it.  When the
    row is too short for the column, the cell is undefined and the
    response has no such key, and for the numeric names the value is
    Number(undefined) and the response has [null]. *)
Theorem getReports_always_answers (store : jsstring) :
  ∃ reports,
    getReports store = Ok200 reports
    ∧ length reports = data_rows store
    ∧ ∀ j line,
        readLines store !! S j = Some line →
        ∃ report : jsobject,
          reports !! j = Some report
          ∧ dom report
            = list_to_set
                (filter (λ header, header ≠ lit "__proto__")
                   (header_names store))
          ∧ ∀ idx header,
              header_names store !! idx = Some header →
              header ≠ lit "__proto__" →
              (∀ idx', idx < idx' → header_names store !! idx' ≠ Some header) →
              report !! header
              = Some (field_value header (split COMMA line !! idx))
              ∧ sent report !! header
                = stringify (field_value header (split COMMA line !! idx))
              ∧ (length (split COMMA line) ≤ idx →
                 report !! header
                 = Some (if is_numeric_header header
                         then VNumber (Number None) else VUndefined)
                 ∧ sent report !! header
                   = if is_numeric_header header then Some JNull else None).
Proof.
  unfold getReports, header_names. eexists. split; [reflexivity|]. split.
  - by rewrite length_fmap, length_drop.
  - intros j line Hline. eexists. split; [|split].
    + rewrite list_lookup_fmap, lookup_drop. change (1 + j) with (S j).
      by rewrite Hline.
    + rewrite forEach_header_dom, dom_empty_L.
      by rewrite (left_id_L ∅ (∪)).
    + intros idx header Hidx Hproto Hlast.
      pose proof (forEach_header_lookup _ 0 (split COMMA line) ∅ idx header
                    Hidx Hproto Hlast) as Hfield.
      cbn [Nat.add] in Hfield.
      assert (sent (forEach_header
                      (split COMMA (default [] (readLines store !! 0))) 0
                      (split COMMA line) ∅) !! header
              = stringify (field_value header (split COMMA line !! idx)))
        as Hsent by (unfold sent; by rewrite lookup_omap, Hfield).
      split; [done|]. split; [done|].
      intros Hshort. rewrite Hsent, Hfield.
      rewrite (lookup_ge_None_2 _ _ Hshort).
      destruct (missing_cell header) as [-> ->]. done.
Qed.

(** A file whose data row has two columns: the read answers; the record
    has an undefined [status], which is not sent, and NaN as its
    [latitude], which is sent as [null]. *)
Lemma getReports_always_answers_witness :
  ∃ reports,
    getReports Sample.short_row = Ok200 reports
    ∧ length reports = 1
    ∧ ∃ report : jsobject,
        reports !! 0 = Some report
        ∧ report !! lit "status" = Some VUndefined
        ∧ sent report !! lit "status" = None
        ∧ sent report !! lit "latitude" = Some JNull
        ∧ sent report !! lit "image_filename"
          = Some (JString (lit "1700000000000-flood.png")).
Proof.
  destruct (getReports_always_answers Sample.short_row)
    as (reports & Hget & Hlength & Hrows).
  exists reports. split; [exact Hget|]. split; [exact Hlength|].
  destruct (Hrows 0 (lit "1,1700000000000-flood.png") eq_refl)
    as (report & Hreport & _ & Hfields).
  exists report. split; [exact Hreport|].
  destruct (Hfields 6 (lit "status")) as (Hstatus & Hsent & _);
    [reflexivity | by_computing | |].
  { intros idx' Hlt. do 7 (destruct idx' as [|idx']; [lia|]). by vm_compute. }
  destruct (Hfields 2 (lit "latitude")) as (_ & Hlatitude & _);
    [reflexivity | by_computing | |].
  { intros idx' Hlt. do 3 (destruct idx' as [|idx']; [lia|]).
    do 5 (destruct idx' as [|idx']; [by vm_compute|]). by vm_compute. }
  destruct (Hfields 1 (lit "image_filename")) as (_ & Himage & _);
    [reflexivity | by_computing | |].
  { intros idx' Hlt. do 2 (destruct idx' as [|idx']; [lia|]).
    do 6 (destruct idx' as [|idx']; [by vm_compute|]). by vm_compute. }
  split; [exact Hstatus|]. split; [exact Hsent|].
  split; [exact Hlatitude | exact Himage].
Defined.

(** C5 as stated fails: for a file whose data row has two columns
    under a header of seven, the read answers 200 with a record whose
    missing cells are undefined. *)
Lemma getReports_always_answers_counterexample :
  misaligned Sample.short_row = true
  ∧ status_code (getReports Sample.short_row) = 200
  ∧ match getReports Sample.short_row with
    | Ok200 [report] =>
        report !! lit "id" = Some (VNumber (Number (Some (lit "1"))))
        ∧ report !! lit "latitude" = Some (VNumber (Number None))
        ∧ report !! lit "status" = Some VUndefined
    | _ => False
    end.
Proof. by vm_compute. Qed.

(** *** Writing a report and reading it back *)

Lemma getReports_lines store header rows :
  readLines store = header :: rows →
  getReports store
  = Ok200 ((λ line, forEach_header (split COMMA header) 0
                      (split COMMA line) ∅) <$> rows).
Proof. intros Hlines. unfold getReports. by rewrite Hlines. Qed.

Lemma Forall_plain_split values :
  Forall plain values →
  Forall (λ piece, COMMA ∉ piece) values ∧ Forall one_line values.
Proof.
  intros Hvalues.
  split; (eapply Forall_impl; [exact Hvalues|]); by intros value [].
Qed.


Lemma status_header_line :
  StatusServer.CSV_HEADER
  = lit "id,image_filename,latitude,longitude,location,description,status"
    ++ [LF]
  ∧ lit "id,image_filename,latitude,longitude,location,description,status"
    = 105%N
      :: lit "d,image_filename,latitude,longitude,location,description,status"
  ∧ LF ∉ lit "id,image_filename,latitude,longitude,location,description,status".
Proof.
  split; [done|]. split; [by vm_compute|].
  by_computing.
Qed.





Lemma level_no_comma humanitarian severity :
  COMMA ∉ getUrgencyLevel humanitarian severity.
Proof.
  pose proof (UrgencyFacts.getUrgencyLevel_range humanitarian severity) as H.
  repeat (apply elem_of_cons in H as [->|H]);
    [| | | | | | by apply elem_of_nil in H];
    by_computing.
Qed.



Lemma flood_form_plain : accepted_with plain Sample.flood_form.
Proof.
  split; [by eexists|]. unfold form_values, plain.
  repeat constructor; by_computing.
Qed.



End ReadFacts.

(** ** The files the status server writes *)

Module ReachFacts.
Import JsFacts StoreFacts EncodingFacts ReadFacts UpdateFacts StatusServer.
Local Opaque lit toString.

Lemma trimStart_snoc l c :
  trimStart (l ++ [c])
  = match trimStart l with
    | [] => if is_whitespace c then [] else [c]
    | t => t ++ [c]
    end.
Proof.
  induction l as [|x l IH]; simpl; [done|].
  by destruct (is_whitespace x).
Qed.

Lemma trimEnd_cons c r :
  trimEnd (c :: r) = [] ∨ trimEnd (c :: r) = c :: trimEnd r.
Proof.
  unfold trimEnd. simpl. rewrite trimStart_snoc.
  destruct (trimStart (rev r)) as [|x t].
  - destruct (is_whitespace c); [by left | by right].
  - right. by rewrite rev_app_distr.
Qed.

Lemma trim_headed c h d body :
  is_whitespace c = false → is_whitespace d = false →
  trim ((c :: h ++ [d]) ++ LF :: body)
  = (c :: h ++ [d]) ++ trimEnd (LF :: body).
Proof.
  intros Hc Hd. unfold trim. rewrite <- app_comm_cons, trimStart_text by done.
  rewrite <- app_assoc. cbn [app]. rewrite app_comm_cons.
  rewrite (trimEnd_app_text _ _ _ Hd). by rewrite <- !app_assoc.
Qed.

Lemma headed_lines store :
  headed CSV_HEADER store →
  ∃ rows,
    readLines store
    = lit "id,image_filename,latitude,longitude,location,description,status"
      :: rows.
Proof.
  intros (body & -> & _).
  destruct status_header_line as (Hheader & _ & Hone).
  assert (lit "id,image_filename,latitude,longitude,location,description,status"
          = 105%N
            :: lit "d,image_filename,latitude,longitude,location,description,statu"
            ++ [115%N]) as Hshape by (by vm_compute).
  unfold readLines. rewrite Hheader, <- app_assoc. cbn [app].
  rewrite Hshape, trim_headed by done. rewrite <- Hshape.
  destruct (trimEnd_cons LF body) as [->| ->].
  - exists []. rewrite app_nil_r. by apply split_no_sep.
  - exists (split LF (trimEnd body)).
    by rewrite split_app_sep, (split_no_sep _ _ Hone).
Qed.

Lemma headed_postReport store form :
  headed CSV_HEADER store → headed CSV_HEADER (postReport store form).2.
Proof.
  intros (body & -> & Hbody). unfold postReport.
  destruct (image form) as [filename|]; cbn [snd]; [|by exists body].
  exists (body
          ++ newRow (length (readLines (CSV_HEADER ++ body))) filename form).
  split; [by rewrite app_assoc|]. right.
  unfold newRow. rewrite !app_assoc. apply last_snoc.
Qed.

Lemma headed_putStatus store reportId status :
  headed CSV_HEADER store →
  headed CSV_HEADER (putStatus store reportId status).2.
Proof.
  intros Hheaded. destruct (headed_lines store Hheaded) as [rows Hlines].
  unfold putStatus. rewrite Hlines.
  destruct (negb _); [done|].
  assert (headed CSV_HEADER
            (writeFileSync
               (join [LF]
                  (fst <$> imap (updateLine reportId status)
                     (lit "id,image_filename,latitude,longitude,location,description,status" :: rows))
                ++ [LF]))) as Hwritten.
  { rewrite imap_cons, fmap_cons. cbn [updateLine fst].
    unfold updateLine at 1. cbn [decide_rel]. rewrite decide_True by done.
    cbn [fst]. unfold writeFileSync.
    rewrite (toWellFormed_app_text _ [LF]) by (by repeat constructor).
    rewrite toWellFormed_join, fmap_cons by done.
    assert (toWellFormed
              (lit "id,image_filename,latitude,longitude,location,description,status")
            = lit "id,image_filename,latitude,longitude,location,description,status")
      as -> by (by vm_compute).
    destruct (toWellFormed <$> (fst <$> imap (updateLine reportId status ∘ S) rows))
      as [|x xs].
    - exists []. split; [|by left]. by rewrite app_nil_r.
    - rewrite join_cons. exists (join [LF] (x :: xs) ++ [LF]).
      split; [|right; apply last_snoc].
      unfold CSV_HEADER. by rewrite <- !app_assoc. }
  by destruct (find _ _).
Qed.

Section Serve.

Variable sha256_hex : jsstring → jsstring.

Lemma headed_handle st req :
  headed CSV_HEADER (reports_csv st) →
  headed CSV_HEADER (reports_csv (handle sha256_hex st req).2).
Proof.
  intros Hheaded. destruct req as [form| |id status|m n e p mp|m p]; simpl.
  - pose proof (headed_postReport _ form Hheaded) as H.
    by destruct (postReport _ form).
  - done.
  - pose proof (headed_putStatus _ id status Hheaded) as H.
    by destruct (putStatus _ id status).
  - by destruct (signup sha256_hex _ m n e p mp).
  - done.
Qed.

(** Whatever requests the server has served since it created the file,
    the file starts with the header line and ends with a line feed. *)
Lemma created_file_stays_headed reqs :
  headed CSV_HEADER (reports_csv (serve sha256_hex (startup None) reqs)).
Proof.
  assert (headed CSV_HEADER (reports_csv (startup None))) as Hstart.
  { exists []. split; [by rewrite app_nil_r | by left]. }
  revert Hstart. generalize (startup None).
  induction reqs as [|req reqs IH]; intros st Hheaded; [done|].
  apply IH. by apply headed_handle.
Qed.

End Serve.

End ReachFacts.

(** ** More on the urgency classifier *)

Module UrgencyRange.
Import JsFacts StoreFacts UrgencyFacts.

Lemma table_entries_are_levels humanitarian severity :
  humanitarian ∈ humanitarian_categories →
  severity ∈ severity_categories →
  getUrgencyLevel humanitarian severity ≠ lit "N/A".
Proof.
  unfold humanitarian_categories, severity_categories. intros Hh Hs.
  repeat (apply elem_of_cons in Hh as [->|Hh]);
    [| | | | by apply elem_of_nil in Hh];
    repeat (apply elem_of_cons in Hs as [->|Hs]);
    try (by apply elem_of_nil in Hs); by_computing.
Qed.

(** X1.  Whatever the two labels are, the urgency level is one of six
    texts, holds no comma and no line feed and ends in a character that
    is not white space, so that it cannot break the row it closes; and
    it is "N/A" exactly when one of the labels is outside its
    categories. *)
Theorem getUrgencyLevel_fits_a_row (humanitarian severity : jsstring) :
  getUrgencyLevel humanitarian severity
  ∈ [ lit "5 (Critical)"; lit "4 (High)"; lit "3 (Moderate)"; lit "2 (Low)";
      lit "1 (Minimal)"; lit "N/A" ]
  ∧ plain (getUrgencyLevel humanitarian severity)
  ∧ ends_in_text (getUrgencyLevel humanitarian severity)
  ∧ (getUrgencyLevel humanitarian severity = lit "N/A"
     ↔ humanitarian ∉ humanitarian_categories
       ∨ severity ∉ severity_categories).
Proof.
  split; [apply getUrgencyLevel_range|].
  split; [split; [apply ReadFacts.level_no_comma | apply AppendFacts.level_text]|].
  split; [apply AppendFacts.level_text|].
  split; [|apply N_A_when_no_branch_returns].
  intros HNA.
  destruct (decide (humanitarian ∈ humanitarian_categories)) as [Hh|]; [|by left].
  destruct (decide (severity ∈ severity_categories)) as [Hs|]; [|by right].
  by destruct (table_entries_are_levels _ _ Hh Hs).
Qed.

End UrgencyRange.

(** ** More on the user directory *)

Module DirectoryMore.
Import JsFacts DirectoryFacts.

Lemma find_fresh_snoc (users : list user) newUser m :
  mobile_number newUser = m →
  (∀ u, u ∈ users → mobile_number u ≠ m) →
  find (λ u, str_eqb (mobile_number u) m) (users ++ [newUser]) = Some newUser.
Proof. intros Hm Hfresh. by apply find_first. Qed.

Lemma find_other_snoc (users : list user) newUser m :
  mobile_number newUser ≠ m →
  find (λ u, str_eqb (mobile_number u) m) (users ++ [newUser])
  = find (λ u, str_eqb (mobile_number u) m) users.
Proof.
  intros Hm. induction users as [|u users IH]; simpl.
  - by rewrite (proj2 (str_eqb_false _ _) Hm).
  - by destruct (str_eqb (mobile_number u) m).
Qed.

Section Signup.

Variable sha256_hex : jsstring → jsstring.

(** X2.  After a sign-up with a number that was free and a password
    that is a string, a login with that number and the MPIN of the
    sign-up answers 200 with the new user's number and name and the
    profiles of all users stored before, and a login with that number
    and any other MPIN answers 401.  After a sign-up with such a number
    but no string as password, which answers 500, the number is still
    unknown: the login answers 404. *)
Theorem login_after_signup (users : list user)
    (mobile name email : jsstring) (password : option jsstring)
    (mpin : jsstring) :
  (∀ u, u ∈ users → mobile_number u ≠ mobile) →
  (is_Some password →
   login (signup sha256_hex users mobile name email password mpin).2
     mobile mpin
   = Ok200 {| login_message := lit "Login successful";
              login_user := Contact mobile name;
              login_contacts := public_profile <$> users |}
   ∧ ∀ other, other ≠ mpin →
       login (signup sha256_hex users mobile name email password mpin).2
         mobile other
       = Fail 401 (lit "Invalid MPIN."))
  ∧ (password = None →
     ∀ other,
       login (signup sha256_hex users mobile name email password mpin).2
         mobile other
       = Fail 404 (lit "User not found.")).
Proof.
  intros Hfresh. split.
  - intros [text ->]. unfold signup. rewrite (find_absent _ _ Hfresh).
    cbn [hashPassword fmap option_fmap option_map snd].
    unfold login. rewrite find_fresh_snoc by done.
    cbn [Directory.mpin mobile_number Directory.name].
    split.
    + rewrite (proj2 (str_eqb_true mpin mpin) eq_refl). cbn [negb].
      rewrite filter_app, filter_keeps_others by done.
      rewrite filter_cons_False by (intros H; by apply H).
      by rewrite filter_nil, app_nil_r.
    + intros other Hother.
      by rewrite (proj2 (str_eqb_false _ _) (not_eq_sym Hother)).
  - intros -> other. unfold signup. rewrite (find_absent _ _ Hfresh).
    cbn [hashPassword fmap option_fmap option_map snd].
    unfold login. by rewrite (find_absent _ _ Hfresh).
Qed.

(** X3.  A sign-up with a number that was free changes the login of a
    user with another number in one way only, and only when its password
    is a string: where the login answered 200, the contacts have the new
    user's profile added at the end.  Without a string as password the
    sign-up answers 500 and the login is as before. *)
Theorem signup_adds_one_contact (users : list user)
    (mobile name email : jsstring) (password : option jsstring)
    (mpin caller mpin' : jsstring) :
  (∀ u, u ∈ users → mobile_number u ≠ mobile) → caller ≠ mobile →
  login (signup sha256_hex users mobile name email password mpin).2
    caller mpin'
  = match password, login users caller mpin' with
    | Some _, Ok200 body =>
        Ok200 {| login_message := login_message body;
                 login_user := login_user body;
                 login_contacts :=
                   login_contacts body ++ [Contact mobile name] |}
    | _, answer => answer
    end.
Proof.
  intros Hfresh Hcaller. unfold signup. rewrite (find_absent _ _ Hfresh).
  destruct password as [text|];
    cbn [hashPassword fmap option_fmap option_map snd];
    [|by destruct (login users caller mpin')].
  unfold login. rewrite find_other_snoc by done.
  destruct (find _ users) as [user|]; [|done].
  destruct (negb (str_eqb (Directory.mpin user) mpin')); [done|].
  rewrite filter_app, filter_cons_True by done.
  by rewrite filter_nil, fmap_app.
Qed.

Lemma find_none_fresh (users : list user) m :
  find (λ u, str_eqb (mobile_number u) m) users = None →
  ∀ u, u ∈ users → mobile_number u ≠ m.
Proof.
  intros Hfind u Hu. apply str_eqb_false.
  apply (find_none _ _ Hfind u). by apply list_elem_of_In.
Qed.

Lemma signup_keeps_distinct users m n e p mp :
  NoDup (mobile_number <$> users) →
  NoDup (mobile_number <$> (signup sha256_hex users m n e p mp).2).
Proof.
  intros Hdistinct. unfold signup.
  destruct (find _ users) eqn:Hfind; [done|].
  destruct (hashPassword sha256_hex p); [|done]. cbn [snd].
  rewrite fmap_app. apply NoDup_app. split; [done|].
  split; [|apply NoDup_singleton].
  intros x (u & -> & Hu)%list_elem_of_fmap Hnew.
  rewrite list_fmap_singleton in Hnew.
  apply list_elem_of_singleton in Hnew.
  by apply (find_none_fresh _ _ Hfind u).
Qed.

Lemma status_serve_keeps_distinct reqs st :
  NoDup (mobile_number <$> StatusServer.users st) →
  NoDup (mobile_number
           <$> StatusServer.users (StatusServer.serve sha256_hex st reqs)).
Proof.
  revert st. induction reqs as [|req reqs IH]; intros st Hdistinct; [done|].
  apply IH. destruct req as [form| |id status|m n e p mp|m p]; simpl.
  - by destruct (StatusServer.postReport _ form).
  - done.
  - by destruct (StatusServer.putStatus _ id status).
  - pose proof (signup_keeps_distinct _ m n e p mp Hdistinct) as H.
    by destruct (signup sha256_hex _ m n e p mp).
  - done.
Qed.

Lemma prediction_serve_keeps_distinct reqs st :
  NoDup (mobile_number <$> PredictionServer.users st) →
  NoDup (mobile_number
           <$> PredictionServer.users
                 (PredictionServer.serve sha256_hex st reqs)).
Proof.
  revert st. induction reqs as [|req reqs IH]; intros st Hdistinct; [done|].
  apply IH. destruct req as [form answers| |m n e p mp|m p]; simpl.
  - by destruct (PredictionServer.postReport _ form answers).
  - done.
  - pose proof (signup_keeps_distinct _ m n e p mp Hdistinct) as H.
    by destruct (signup sha256_hex _ m n e p mp).
  - done.
Qed.

(** X4.  Whatever requests either server has served since it started,
    no two stored users have the same mobile number. *)
Theorem mobile_numbers_stay_distinct :
  (∀ existing reqs,
     NoDup (mobile_number
              <$> StatusServer.users
                    (StatusServer.serve sha256_hex
                       (StatusServer.startup existing) reqs)))
  ∧ (∀ existing reqs,
       NoDup (mobile_number
                <$> PredictionServer.users
                      (PredictionServer.serve sha256_hex
                         (PredictionServer.startup existing) reqs))).
Proof.
  split; intros existing reqs.
  - apply status_serve_keeps_distinct. constructor.
  - apply prediction_serve_keeps_distinct. constructor.
Qed.

Lemma status_file_ignores_directory reqs : ∀ st st',
  StatusServer.reports_csv st = StatusServer.reports_csv st' →
  StatusServer.reports_csv (StatusServer.serve sha256_hex st reqs)
  = StatusServer.reports_csv
      (StatusServer.serve sha256_hex st' (filter Traffic.status_on_file reqs)).
Proof.
  induction reqs as [|req reqs IH]; intros st st' Hsame; [done|].
  destruct req as [form| |id status|m n e p mp|m p].
  - rewrite filter_cons_True by done. apply IH. simpl. rewrite Hsame.
    by destruct (StatusServer.postReport _ form).
  - rewrite filter_cons_False by (by intros []). by apply IH.
  - rewrite filter_cons_True by done. apply IH. simpl. rewrite Hsame.
    by destruct (StatusServer.putStatus _ id status).
  - rewrite filter_cons_False by (by intros []). apply IH. simpl.
    by destruct (signup sha256_hex _ m n e p mp).
  - rewrite filter_cons_False by (by intros []). by apply IH.
Qed.

Lemma status_directory_ignores_file reqs : ∀ st st',
  StatusServer.users st = StatusServer.users st' →
  StatusServer.users (StatusServer.serve sha256_hex st reqs)
  = StatusServer.users
      (StatusServer.serve sha256_hex st'
         (filter Traffic.status_on_directory reqs)).
Proof.
  induction reqs as [|req reqs IH]; intros st st' Hsame; [done|].
  destruct req as [form| |id status|m n e p mp|m p].
  - rewrite filter_cons_False by (by intros []). apply IH. simpl.
    by destruct (StatusServer.postReport _ form).
  - rewrite filter_cons_False by (by intros []). by apply IH.
  - rewrite filter_cons_False by (by intros []). apply IH. simpl.
    by destruct (StatusServer.putStatus _ id status).
  - rewrite filter_cons_True by done. apply IH. simpl. rewrite Hsame.
    by destruct (signup sha256_hex _ m n e p mp).
  - rewrite filter_cons_False by (by intros []). by apply IH.
Qed.

Lemma prediction_file_ignores_directory reqs : ∀ st st',
  PredictionServer.reports_csv st = PredictionServer.reports_csv st' →
  PredictionServer.reports_csv (PredictionServer.serve sha256_hex st reqs)
  = PredictionServer.reports_csv
      (PredictionServer.serve sha256_hex st'
         (filter Traffic.prediction_on_file reqs)).
Proof.
  induction reqs as [|req reqs IH]; intros st st' Hsame; [done|].
  destruct req as [form answers| |m n e p mp|m p].
  - rewrite filter_cons_True by done. apply IH. simpl. rewrite Hsame.
    by destruct (PredictionServer.postReport _ form answers).
  - rewrite filter_cons_False by (by intros []). by apply IH.
  - rewrite filter_cons_False by (by intros []). apply IH. simpl.
    by destruct (signup sha256_hex _ m n e p mp).
  - rewrite filter_cons_False by (by intros []). by apply IH.
Qed.

Lemma prediction_directory_ignores_file reqs : ∀ st st',
  PredictionServer.users st = PredictionServer.users st' →
  PredictionServer.users (PredictionServer.serve sha256_hex st reqs)
  = PredictionServer.users
      (PredictionServer.serve sha256_hex st'
         (filter Traffic.prediction_on_directory reqs)).
Proof.
  induction reqs as [|req reqs IH]; intros st st' Hsame; [done|].
  destruct req as [form answers| |m n e p mp|m p].
  - rewrite filter_cons_False by (by intros []). apply IH. simpl.
    by destruct (PredictionServer.postReport _ form answers).
  - rewrite filter_cons_False by (by intros []). by apply IH.
  - rewrite filter_cons_True by done. apply IH. simpl. rewrite Hsame.
    by destruct (signup sha256_hex _ m n e p mp).
  - rewrite filter_cons_False by (by intros []). by apply IH.
Qed.

(** X5.  The file and the directory do not touch each other: after any
    requests the file is what the report submissions and status updates
    alone would have made it, and the directory is what the sign-ups
    alone would have made it; reads and logins change neither. *)
Theorem file_and_directory_are_independent :
  (∀ st reqs,
     StatusServer.reports_csv (StatusServer.serve sha256_hex st reqs)
     = StatusServer.reports_csv
         (StatusServer.serve sha256_hex st
            (filter Traffic.status_on_file reqs))
     ∧ StatusServer.users (StatusServer.serve sha256_hex st reqs)
       = StatusServer.users
           (StatusServer.serve sha256_hex st
              (filter Traffic.status_on_directory reqs)))
  ∧ (∀ st reqs,
       PredictionServer.reports_csv
         (PredictionServer.serve sha256_hex st reqs)
       = PredictionServer.reports_csv
           (PredictionServer.serve sha256_hex st
              (filter Traffic.prediction_on_file reqs))
       ∧ PredictionServer.users (PredictionServer.serve sha256_hex st reqs)
         = PredictionServer.users
             (PredictionServer.serve sha256_hex st
                (filter Traffic.prediction_on_directory reqs))).
Proof.
  split; intros st reqs; split.
  - by apply status_file_ignores_directory.
  - by apply status_directory_ignores_file.
  - by apply prediction_file_ignores_directory.
  - by apply prediction_directory_ignores_file.
Qed.

End Signup.

(** Bob signs up after Ada and logs in. *)
Lemma login_after_signup_witness :
  login (signup (λ s, s) [Sample.ada] (lit "5550199") (lit "Bob")
           (lit "bob@example.org") (Some (lit "hunter2")) (lit "4321")).2
    (lit "5550199") (lit "4321")
  = Ok200 {| login_message := lit "Login successful";
             login_user := Contact (lit "5550199") (lit "Bob");
             login_contacts := [public_profile Sample.ada] |}.
Proof.
  apply (login_after_signup (λ s, s) [Sample.ada]).
  - intros u ->%list_elem_of_singleton. by_computing.
  - by eexists.
Defined.

(** Ada's login before and after Bob signed up. *)
Lemma signup_adds_one_contact_witness :
  login (signup (λ s, s) [Sample.ada] (lit "5550199") (lit "Bob")
           (lit "bob@example.org") (Some (lit "hunter2")) (lit "4321")).2
    (lit "5550100") (lit "1234")
  = Ok200 {| login_message := lit "Login successful";
             login_user := public_profile Sample.ada;
             login_contacts := [Contact (lit "5550199") (lit "Bob")] |}.
Proof.
  rewrite (signup_adds_one_contact (λ s, s) [Sample.ada]).
  - reflexivity.
  - intros u ->%list_elem_of_singleton. by_computing.
  - by_computing.
Defined.

End DirectoryMore.

(** ** More on submitting reports *)

Module SubmitFacts.
Import JsFacts StoreFacts AppendFacts Traffic.

Local Opaque lit toString.

(** *** The file of the server with the prediction service only grows *)

Lemma prediction_postReport_appends store form answers :
  store `prefix_of` (PredictionServer.postReport store form answers).2.
Proof.
  unfold PredictionServer.postReport.
  destruct (image form); [|done].
  destruct (PredictionServer.damage_label answers); [|done].
  destruct (PredictionServer.humanitarian_label answers); [|done].
  destruct (PredictionServer.text_label answers); [|done].
  by apply prefix_app_r.
Qed.

Lemma prediction_postReport_cases store form answers :
  ((PredictionServer.postReport store form answers).2 = store
   ∧ response_number (PredictionServer.postReport store form answers).1
     = None)
  ∨ ∃ severity humanitarian disaster,
      (PredictionServer.postReport store form answers).2
      = store
        ++ join [COMMA]
             (PredictionServer.columns (length (readLines store)) form
                severity humanitarian disaster)
        ++ [LF]
      ∧ response_number (PredictionServer.postReport store form answers).1
        = Some (length (readLines store)).
Proof.
  destruct answers as [[s|] [h|] [d|]];
    try (left; unfold PredictionServer.postReport; by destruct (image form)).
  destruct (image form) as [filename|] eqn:Himage;
    [|left; unfold PredictionServer.postReport; by rewrite Himage].
  right. exists s, h, d.
  destruct (prediction_postReport_stored store form s h d) as [Hcsv Hid];
    [by rewrite Himage|].
  split; [done|]. unfold response_number. by rewrite Hid.
Qed.

Lemma prediction_postReport_shape store form answers :
  headed PredictionServer.CSV_HEADER store → terminated store = true →
  headed PredictionServer.CSV_HEADER
    (PredictionServer.postReport store form answers).2
  ∧ terminated (PredictionServer.postReport store form answers).2 = true.
Proof.
  intros (body & -> & Hbody) Hterminated.
  destruct (prediction_postReport_cases (PredictionServer.CSV_HEADER ++ body)
              form answers) as [[-> _]|(s & h & d & -> & _)].
  - split; [by exists body | done].
  - split.
    + eexists. split; [by rewrite <- app_assoc|]. right.
      rewrite !app_assoc. apply last_snoc.
    + apply terminated_append, prediction_columns_end_in_text.
Qed.

Lemma status_postReport_cases store form :
  ((StatusServer.postReport store form).2 = store
   ∧ response_number (StatusServer.postReport store form).1 = None)
  ∨ (StatusServer.postReport store form).2
    = store
      ++ join [COMMA] (StatusServer.columns (length (readLines store)) form)
      ++ [LF]
    ∧ response_number (StatusServer.postReport store form).1
      = Some (length (readLines store)).
Proof.
  destruct (image form) as [filename|] eqn:Himage;
    [|left; unfold StatusServer.postReport; by rewrite Himage].
  right. destruct (status_postReport_stored store form) as [Hcsv Hid];
    [by rewrite Himage|].
  split; [done|]. unfold response_number. by rewrite Hid.
Qed.

(** A row appended to a terminated file adds at least one line, whatever
    the row holds. *)
Lemma readLines_grow store row :
  terminated store = true → ends_in_text row →
  length (readLines store) < length (readLines (store ++ row ++ [LF]))
  ∧ terminated (store ++ row ++ [LF]) = true.
Proof.
  intros Hstore Hrow. split; [|by apply terminated_append].
  unfold readLines. rewrite (trim_append _ _ Hstore Hrow), split_app_sep.
  rewrite length_app. pose proof (split_length_pos LF row). lia.
Qed.

Lemma ids_increase_step (n : nat) (ids : list nat) m :
  n < m → StronglySorted lt ids ∧ Forall (λ k, m ≤ k) ids →
  StronglySorted lt (n :: ids) ∧ Forall (λ k, n ≤ k) (n :: ids).
Proof.
  intros Hlt [Hsorted Hbound]. split.
  - constructor; [done|]. eapply Forall_impl; [exact Hbound|].
    intros k Hk. simpl in Hk. lia.
  - constructor; [done|]. eapply Forall_impl; [exact Hbound|].
    intros k Hk. simpl in Hk. lia.
Qed.

Lemma status_ids_increase forms : ∀ store,
  terminated store = true →
  StronglySorted lt (omap response_number (StatusServer.postReports store forms).1)
  ∧ Forall (λ k, length (readLines store) ≤ k)
      (omap response_number (StatusServer.postReports store forms).1).
Proof.
  induction forms as [|form forms IH]; intros store Hstore.
  - split; constructor.
  - cbn [StatusServer.postReports].
    destruct (status_postReport_cases store form) as [[Hcsv Hid]|[Hcsv Hid]];
      destruct (StatusServer.postReport store form) as [r csv];
      cbn [fst snd] in Hcsv, Hid; subst csv.
    + specialize (IH store Hstore).
      destruct (StatusServer.postReports store forms) as [rs final].
      cbn [fst snd omap list_omap] in *. by rewrite Hid.
    + destruct (readLines_grow store
                  (join [COMMA]
                     (StatusServer.columns (length (readLines store)) form))
                  Hstore (status_columns_end_in_text _ _)) as [Hlt Hnext].
      specialize (IH _ Hnext).
      destruct (StatusServer.postReports _ forms) as [rs final].
      cbn [fst snd omap list_omap] in *. rewrite Hid.
      by apply (ids_increase_step _ _ _ Hlt).
Qed.

Lemma prediction_ids_increase forms : ∀ store,
  terminated store = true →
  StronglySorted lt
    (omap response_number (PredictionServer.postReports store forms).1)
  ∧ Forall (λ k, length (readLines store) ≤ k)
      (omap response_number (PredictionServer.postReports store forms).1).
Proof.
  induction forms as [|[form answers] forms IH]; intros store Hstore.
  - split; constructor.
  - cbn [PredictionServer.postReports].
    destruct (prediction_postReport_cases store form answers)
      as [[Hcsv Hid]|(s & h & d & Hcsv & Hid)];
      destruct (PredictionServer.postReport store form answers) as [r csv];
      cbn [fst snd] in Hcsv, Hid; subst csv.
    + specialize (IH store Hstore).
      destruct (PredictionServer.postReports store forms) as [rs final].
      cbn [fst snd omap list_omap] in *. by rewrite Hid.
    + destruct (readLines_grow store
                  (join [COMMA]
                     (PredictionServer.columns (length (readLines store)) form
                        s h d))
                  Hstore (prediction_columns_end_in_text _ _ _ _ _))
        as [Hlt Hnext].
      specialize (IH _ Hnext).
      destruct (PredictionServer.postReports _ forms) as [rs final].
      cbn [fst snd omap list_omap] in *. rewrite Hid.
      by apply (ids_increase_step _ _ _ Hlt).
Qed.

(** X9.  On a file that ends with a character that is not white space
    and one line feed, the ids given to reports submitted one after the
    other increase strictly, whatever the submitted values hold and
    whichever submissions are refused in between: no two reports get the
    same id, and none gets an id below the number of lines the file had. *)
Theorem sequential_ids_are_distinct :
  (∀ store forms,
     terminated store = true →
     StronglySorted lt
       (omap response_number (StatusServer.postReports store forms).1)
     ∧ Forall (λ k, length (readLines store) ≤ k)
         (omap response_number (StatusServer.postReports store forms).1))
  ∧ (∀ store forms,
       terminated store = true →
       StronglySorted lt
         (omap response_number (PredictionServer.postReports store forms).1)
       ∧ Forall (λ k, length (readLines store) ≤ k)
           (omap response_number
              (PredictionServer.postReports store forms).1)).
Proof.
  split; intros store forms Hstore.
  - by apply status_ids_increase.
  - by apply prediction_ids_increase.
Qed.

(** A report whose description has two lines, and one after it. *)
Lemma sequential_ids_are_distinct_witness :
  StronglySorted lt
    (omap response_number
       (StatusServer.postReports StatusServer.CSV_HEADER
          [Sample.two_line_form; Sample.flood_form]).1).
Proof.
  apply (proj1 sequential_ids_are_distinct StatusServer.CSV_HEADER
           [Sample.two_line_form; Sample.flood_form]).
  by vm_compute.
Defined.

(** *** The records that were there *)




Section Serve.

Variable sha256_hex : jsstring → jsstring.

Lemma prediction_serve_appends reqs : ∀ st,
  PredictionServer.reports_csv st
  `prefix_of` PredictionServer.reports_csv
                (PredictionServer.serve sha256_hex st reqs).
Proof.
  induction reqs as [|req reqs IH]; intros st; [done|].
  etrans; [|apply IH].
  destruct req as [form answers| |m n e p mp|m p]; simpl; try done.
  - pose proof (prediction_postReport_appends
                  (PredictionServer.reports_csv st) form answers) as H.
    by destruct (PredictionServer.postReport _ form answers).
  - by destruct (signup sha256_hex _ m n e p mp).
Qed.

Lemma prediction_serve_shape reqs : ∀ st,
  headed PredictionServer.CSV_HEADER (PredictionServer.reports_csv st) →
  terminated (PredictionServer.reports_csv st) = true →
  headed PredictionServer.CSV_HEADER
    (PredictionServer.reports_csv (PredictionServer.serve sha256_hex st reqs))
  ∧ terminated
      (PredictionServer.reports_csv
         (PredictionServer.serve sha256_hex st reqs)) = true.
Proof.
  induction reqs as [|req reqs IH]; intros st Hheaded Hterminated; [done|].
  destruct req as [form answers| |m n e p mp|m p].
  - destruct (prediction_postReport_shape _ form answers Hheaded Hterminated)
      as [H1 H2].
    apply IH; simpl; by destruct (PredictionServer.postReport _ form answers).
  - by apply IH.
  - apply IH; simpl; by destruct (signup sha256_hex _ m n e p mp).
  - by apply IH.
Qed.

(** X7.  The server with the prediction service never changes or removes
    what is in the file: after any requests the file starts with the
    file as it was. *)
Theorem prediction_file_only_grows st reqs :
  PredictionServer.reports_csv st
  `prefix_of` PredictionServer.reports_csv
                (PredictionServer.serve sha256_hex st reqs).
Proof. apply prediction_serve_appends. Qed.

(** X8.  Whatever requests a server has served since it created the
    file, the file starts with the header line of the server and ends
    with a line feed; with the prediction service, which only appends,
    the character before that line feed is never white space. *)
Theorem created_files_keep_their_shape :
  (∀ reqs,
     headed StatusServer.CSV_HEADER
       (StatusServer.reports_csv
          (StatusServer.serve sha256_hex (StatusServer.startup None) reqs)))
  ∧ (∀ reqs,
       headed PredictionServer.CSV_HEADER
         (PredictionServer.reports_csv
            (PredictionServer.serve sha256_hex
               (PredictionServer.startup None) reqs))
       ∧ terminated
           (PredictionServer.reports_csv
              (PredictionServer.serve sha256_hex
                 (PredictionServer.startup None) reqs)) = true).
Proof.
  split; intros reqs.
  - apply ReachFacts.created_file_stays_headed.
  - destruct (prediction_serve_shape reqs (PredictionServer.startup None))
      as [H1 H2].
    + exists []. split; [by rewrite app_nil_r | by left].
    + by vm_compute.
    + done.
Qed.

End Serve.

End SubmitFacts.

(** ** More on updating the status *)

Module UpdateMore.
Import JsFacts StoreFacts EncodingFacts UpdateFacts ReadFacts StatusServer
  Traffic.

Local Opaque lit toString.

Lemma array_set_head row status reportId :
  row !! 0 = Some reportId →
  ∃ y rest, array_set row 6 status = reportId :: y :: rest.
Proof.
  intros Hid. destruct row as [|x row]; [done|]. injection Hid as ->.
  unfold array_set. destruct (decide (6 < length (reportId :: row))).
  - destruct row as [|y row]; [simpl in *; lia|].
    by exists y, (<[4:=status]> row).
  - destruct row as [|y row].
    + by exists [], (replicate 4 [] ++ [status]).
    + eexists y, _. reflexivity.
Qed.

Lemma updated_line_starts_with_id row status reportId :
  row !! 0 = Some reportId →
  startsWith (reportId ++ [COMMA]) (join [COMMA] (array_set row 6 status))
  = true.
Proof.
  intros Hid. destruct (array_set_head row status reportId Hid)
    as (y & rest & ->).
  rewrite join_cons, app_assoc. apply startsWith_app.
Qed.

Lemma updateLine_found reportId status index line :
  (updateLine reportId status index line).2 = true →
  1 ≤ index ∧ first_column line = Some reportId.
Proof.
  unfold updateLine. destruct (decide (index = 0)); [done|].
  destruct (bool_decide _) eqn:E; [|done]. intros _.
  split; [lia|]. by apply bool_decide_eq_true in E.
Qed.

Lemma existsb_imap_found {A B} (f : nat → A → B * bool) (l : list A) :
  existsb snd (imap f l) = true → ∃ i x, l !! i = Some x ∧ (f i x).2 = true.
Proof.
  revert f. induction l as [|x l IH]; intros f; [done|].
  rewrite imap_cons. cbn [existsb]. intros [H|H]%orb_true_iff.
  - by exists 0, x.
  - destruct (IH _ H) as (i & y & Hy & Hf). by exists (S i), y.
Qed.

(** X11.  A status update answers 200 when some data row of the file has
    the given id in its first column, and 404 when none has; the catch
    branch that answers 500 after the file was written is never taken,
    since every rewritten row starts with the id and a comma. *)
Theorem putStatus_answers (store reportId status : jsstring) :
  (status_code (putStatus store reportId status).1 = 200
   ↔ ∃ j line, 1 ≤ j ∧ readLines store !! j = Some line
       ∧ first_column line = Some reportId)
  ∧ (status_code (putStatus store reportId status).1 = 404
     ↔ ¬ ∃ j line, 1 ≤ j ∧ readLines store !! j = Some line
           ∧ first_column line = Some reportId)
  ∧ status_code (putStatus store reportId status).1 ≠ 500.
Proof.
  unfold putStatus.
  destruct (existsb snd (imap (updateLine reportId status) (readLines store)))
    eqn:Hfound; cbn [negb].
  - destruct (existsb_imap_found _ _ Hfound) as (j & line & Hline & Hhit).
    destruct (updateLine_found _ _ _ _ Hhit) as [Hj Hid].
    assert (is_Some (find (startsWith (reportId ++ [COMMA]))
                       (fst <$> imap (updateLine reportId status)
                                  (readLines store)))) as [found ->].
    { apply (find_is_Some _ _
               (join [COMMA] (array_set (split COMMA line) 6 status))).
      - apply list_elem_of_lookup. exists j.
        rewrite list_lookup_fmap, list_lookup_imap, Hline.
        cbn [fmap option_fmap option_map].
        by rewrite updateLine_hit.
      - by apply updated_line_starts_with_id. }
    cbn [fst status_code]. split; [|split; [|done]].
    + split; [eauto 6 | done].
    + split; [done|]. intros Hnone. destruct Hnone. eauto 6.
  - cbn [fst status_code]. split; [|split; [|done]].
    + split; [done|]. intros (j & line & Hj & Hline & Hid).
      rewrite (existsb_imap_true _ _ j line Hline) in Hfound; [done|].
      by rewrite updateLine_hit.
    + split; [|done]. intros _ (j & line & Hj & Hline & Hid).
      rewrite (existsb_imap_true _ _ j line Hline) in Hfound; [done|].
      by rewrite updateLine_hit.
Qed.

(** *** One update after another *)

Lemma updated_line_columns line status :
  plain status →
  split COMMA (join [COMMA] (<[6:=status]> (split COMMA line)))
  = <[6:=status]> (split COMMA line).
Proof.
  intros [Hcomma _]. apply split_join.
  - pose proof (split_not_nil COMMA line). by destruct (split COMMA line).
  - apply Forall_insert; [apply split_pieces | done].
Qed.

Lemma putStatus_well_formed store reportId status :
  well_formed store → well_formed (putStatus store reportId status).2.
Proof.
  intros Hstore. unfold putStatus. destruct (negb _); [done|].
  destruct (find _ _); apply toWellFormed_idemp.
Qed.

(** X12.  Of two updates of the same report the second wins: when the
    file was read without a lone surrogate, the row of the report is
    well formed and alone with its id, and neither status holds a comma,
    a line feed or white space at its end, the file after both updates
    is the file after the second alone.  An update made twice writes the
    same file as the update made once. *)
Theorem putStatus_last_write_wins (store reportId first second : jsstring)
    (i : nat) :
  well_formed store →
  well_formed_row store reportId i → no_other_row store reportId i →
  storable first → storable second →
  (putStatus (putStatus store reportId first).2 reportId second).2
  = (putStatus store reportId second).2.
Proof.
  intros Hstore (Hi & line & Hline & Hrow & Hid) Hother Hfirst Hsecond.
  pose proof (lookup_lt_Some _ _ _ Hline) as Hlt.
  pose proof (putStatus_well_formed store reportId first Hstore) as Hstored.
  pose proof (toWellFormed_storable first Hfirst) as Hfirst'.
  destruct (putStatus_written store reportId first i line Hstore Hi Hline
              Hrow Hid Hother) as (Hw1 & _ & Hr1).
  destruct (putStatus_written store reportId second i line Hstore Hi Hline
              Hrow Hid Hother) as (Hw2 & _ & _).
  specialize (Hr1 Hfirst).
  rewrite Hw2. rewrite Hw1 in Hstored |- *.
  destruct (putStatus_written
              (join [LF]
                 (<[i:=join [COMMA]
                         (<[6:=toWellFormed first]> (split COMMA line))]>
                    (readLines store)) ++ [LF])
              reportId second i
              (join [COMMA] (<[6:=toWellFormed first]> (split COMMA line))))
    as (Hw & _ & _); try done.
  - rewrite Hr1. by apply list_lookup_insert_eq.
  - rewrite updated_line_columns by apply Hfirst'. by rewrite length_insert.
  - unfold first_column in *.
    rewrite updated_line_columns by apply Hfirst'.
    by rewrite list_lookup_insert_ne.
  - intros j l Hj Hne. rewrite Hr1, list_lookup_insert_ne by done.
    by apply Hother.
  - rewrite Hw, Hr1, updated_line_columns by apply Hfirst'.
    by rewrite !list_insert_insert_eq.
Qed.

Lemma one_report_alone :
  no_other_row Sample.one_report (lit "1") 1.
Proof.
  intros j line Hj Hne Hline.
  destruct j as [|[|j]]; [lia | done |]. vm_compute in Hline. done.
Qed.

Lemma storable_check status :
  bool_decide (plain status)
  && match last status with
     | Some c => negb (is_whitespace c)
     | None => true
     end = true →
  storable status.
Proof.
  intros [Hplain Hlast]%andb_true_iff. split.
  - by apply bool_decide_eq_true in Hplain.
  - destruct (last status); [by apply negb_true_iff | done].
Qed.

(** The report 1 is set to in_progress and then to resolved. *)
Lemma putStatus_last_write_wins_witness :
  (putStatus (putStatus Sample.one_report (lit "1") (lit "in_progress")).2
     (lit "1") (lit "resolved")).2
  = (putStatus Sample.one_report (lit "1") (lit "resolved")).2.
Proof.
  apply (putStatus_last_write_wins _ _ _ _ 1).
  - by vm_compute.
  - apply one_report_row.
  - apply one_report_alone.
  - apply storable_check. by vm_compute.
  - apply storable_check. by vm_compute.
Defined.

(** *** What the update answers, and what is read after it *)

Lemma startsWith_prefix prefix s :
  startsWith prefix s = true → ∃ rest, s = prefix ++ rest.
Proof.
  revert s. induction prefix as [|p prefix IH]; intros s Hs; [by exists s|].
  destruct s as [|c s]; [done|]. simpl in Hs.
  apply andb_true_iff in Hs as [->%N.eqb_eq Hs].
  destruct (IH s Hs) as [rest ->]. by exists rest.
Qed.

Lemma starts_with_id_column reportId line :
  COMMA ∉ reportId → startsWith (reportId ++ [COMMA]) line = true →
  first_column line = Some reportId.
Proof.
  intros Hid [rest ->]%startsWith_prefix. unfold first_column.
  rewrite <- app_assoc. cbn [app].
  by rewrite split_app_sep, (split_no_sep _ _ Hid).
Qed.

Lemma find_first_at {A} (f : A → bool) (l : list A) i x :
  l !! i = Some x → f x = true →
  (∀ j y, j < i → l !! j = Some y → f y = false) →
  find f l = Some x.
Proof.
  revert i. induction l as [|y l IH]; intros i Hx Hf Hbefore; [done|].
  destruct i as [|i]; simpl.
  - injection Hx as ->. by rewrite Hf.
  - rewrite (Hbefore 0 y); [|lia|done].
    apply (IH i Hx Hf). intros j z Hj Hz. apply (Hbefore (S j) z); [lia|done].
Qed.

Lemma first_column_no_comma line reportId :
  first_column line = Some reportId → COMMA ∉ reportId.
Proof.
  unfold first_column. intros Hid.
  pose proof (split_pieces COMMA line) as Hpieces.
  rewrite Forall_lookup in Hpieces. by apply (Hpieces 0).
Qed.

(** X13.  When the row of the report is well formed and alone with its
    id, the status holds no comma, and the first column of the header
    line is not the id, the update answers with the report as it is
    after the update: its id, the five values of its row, and the new
    status. *)
Theorem putStatus_answers_the_updated_report
    (store reportId status : jsstring) (i : nat) (line : jsstring) :
  1 ≤ i → readLines store !! i = Some line →
  length (split COMMA line) = 7 → first_column line = Some reportId →
  no_other_row store reportId i → plain status →
  (∀ header, readLines store !! 0 = Some header →
     first_column header ≠ Some reportId) →
  (putStatus store reportId status).1
  = Ok200
      (report_json (VNumber (Number (Some reportId)))
         (cell (split COMMA line !! 1))
         (VNumber (Number (split COMMA line !! 2)))
         (VNumber (Number (split COMMA line !! 3)))
         (cell (split COMMA line !! 4)) (cell (split COMMA line !! 5))
         (VString status)).
Proof.
  intros Hi Hline Hrow Hid Hother Hstatus Hheader.
  pose proof (lookup_lt_Some _ _ _ Hline) as Hlt.
  rewrite (putStatus_unfolded store reportId status i line Hi Hline Hrow Hid
             Hother).
  cbn [fst].
  rewrite (find_first_at _ _ i
             (join [COMMA] (<[6:=status]> (split COMMA line)))).
  - cbv zeta. rewrite updated_line_columns by done.
    rewrite !list_lookup_insert_ne by done.
    rewrite list_lookup_insert_eq by lia.
    unfold first_column in Hid. by rewrite Hid.
  - by apply list_lookup_insert_eq.
  - apply updated_line_starts; [done | exact Hid].
  - intros j y Hj Hy. rewrite list_lookup_insert_ne in Hy by lia.
    destruct (startsWith (reportId ++ [COMMA]) y) eqn:Hstarts; [|done].
    apply starts_with_id_column in Hstarts;
      [|by apply (first_column_no_comma line)].
    destruct j as [|j].
    + by destruct (Hheader y Hy).
    + destruct (Hother (S j) y); [lia | lia | done | done].
Qed.

(** The report 1 is set to resolved. *)
Lemma putStatus_answers_the_updated_report_witness :
  (putStatus Sample.one_report (lit "1") (lit "resolved")).1
  = Ok200
      (report_json (VNumber (Number (Some (lit "1"))))
         (VString (lit "1700000000000-flood.png"))
         (VNumber (Number (Some (lit "12.9"))))
         (VNumber (Number (Some (lit "77.6"))))
         (VString (lit "MG Road")) (VString (lit "Flood"))
         (VString (lit "resolved"))).
Proof.
  apply (putStatus_answers_the_updated_report Sample.one_report (lit "1")
           (lit "resolved") 1
           (lit "1,1700000000000-flood.png,12.9,77.6,MG Road,Flood,not_resolved")).
  - lia.
  - by vm_compute.
  - by vm_compute.
  - by vm_compute.
  - apply one_report_alone.
  - split; by_computing.
  - intros header Hheader. vm_compute in Hheader.
    injection Hheader as <-. by vm_compute.
Defined.

(** X14.  The answer is built from the first line that starts with the
    id and a comma, and the header line is one of the lines searched:
    when the header line starts with the id and a comma and some data
    row has the id, the update answers 200 with the columns of the
    header line in place of the report. *)
Theorem putStatus_answers_from_the_header
    (store reportId status header : jsstring) :
  readLines store !! 0 = Some header →
  startsWith (reportId ++ [COMMA]) header = true →
  (∃ j line, 1 ≤ j ∧ readLines store !! j = Some line
     ∧ first_column line = Some reportId) →
  (putStatus store reportId status).1
  = Ok200
      (report_json (VNumber (Number (split COMMA header !! 0)))
         (cell (split COMMA header !! 1))
         (VNumber (Number (split COMMA header !! 2)))
         (VNumber (Number (split COMMA header !! 3)))
         (cell (split COMMA header !! 4)) (cell (split COMMA header !! 5))
         (cell (split COMMA header !! 6))).
Proof.
  intros Hheader Hstarts (j & line & Hj & Hline & Hid).
  unfold putStatus.
  rewrite (existsb_imap_true _ _ j line Hline); [|by rewrite updateLine_hit].
  cbn [negb].
  destruct (readLines store) as [|first rest]; [done|].
  injection Hheader as ->.
  rewrite imap_cons, fmap_cons. unfold updateLine at 1.
  rewrite decide_True by done. cbn [fst find]. by rewrite Hstarts.
Qed.

(** A file whose data row has the id that the header line starts with. *)
Lemma putStatus_answers_from_the_header_witness :
  (putStatus
     (CSV_HEADER ++ lit "id,photo.png,12.9,77.6,MG Road,Flood,not_resolved"
      ++ [LF])
     (lit "id") (lit "resolved")).1
  = Ok200
      (report_json (VNumber (Number (Some (lit "id"))))
         (VString (lit "image_filename"))
         (VNumber (Number (Some (lit "latitude"))))
         (VNumber (Number (Some (lit "longitude"))))
         (VString (lit "location")) (VString (lit "description"))
         (VString (lit "status"))).
Proof.
  apply (putStatus_answers_from_the_header _ (lit "id") (lit "resolved")
           (lit "id,image_filename,latitude,longitude,location,description,status")).
  - by vm_compute.
  - by vm_compute.
  - exists 1, (lit "id,photo.png,12.9,77.6,MG Road,Flood,not_resolved").
    split; [lia|]. split; by vm_compute.
Defined.

Lemma insert_tail {A} k (x h : A) (l : list A) :
  <[S k:=x]> (h :: l) = h :: <[k:=x]> l.
Proof. done. Qed.

Lemma status_record_of_updated_row row status :
  length row = 7 →
  forEach_header
    (split COMMA
       (lit "id,image_filename,latitude,longitude,location,description,status"))
    0 (<[6:=status]> row) ∅
  = <[lit "status" := VString status]>
      (forEach_header
         (split COMMA
            (lit "id,image_filename,latitude,longitude,location,description,status"))
         0 row ∅).
Proof.
  intros Hrow.
  destruct row as [|a [|b [|c [|d [|e [|f [|g [|h row]]]]]]]]; done.
Qed.

(** X15.  Reading after an update: on a file that starts with the header
    line of the server and was read without a lone surrogate, when the
    row of the report is well formed and alone with its id and the
    status holds no comma, no line feed and no white space at its end,
    the records read after the update are the records read before,
    except that the record of the report has the new [status] as the
    file stores it: with U+FFFD in the place of every surrogate that is
    not part of a pair, and so the status itself when it has none. *)
Theorem getReports_after_putStatus (store reportId status : jsstring)
    (i : nat) :
  headed CSV_HEADER store → well_formed store →
  well_formed_row store reportId i → no_other_row store reportId i →
  storable status →
  ∃ reports report,
    getReports store = Ok200 reports
    ∧ reports !! (i - 1) = Some report
    ∧ getReports (putStatus store reportId status).2
      = Ok200 (<[i - 1 :=
                   <[lit "status" := VString (toWellFormed status)]> report]>
                 reports).
Proof.
  intros Hheaded Hstore (Hi & line & Hline & Hrow & Hid) Hother Hstatus.
  pose proof (toWellFormed_storable status Hstatus) as Hstatus'.
  destruct (putStatus_written store reportId status i line Hstore Hi Hline
              Hrow Hid Hother) as (Hw & _ & Hr).
  specialize (Hr Hstatus).
  destruct (ReachFacts.headed_lines store Hheaded) as [rows Hlines].
  rewrite Hw. rewrite Hlines in Hr, Hline |- *.
  destruct i as [|k]; [lia|]. cbn [lookup list_lookup] in Hline.
  change (S k - 1) with (k - 0). rewrite Nat.sub_0_r.
  rewrite insert_tail in Hr |- *.
  rewrite (getReports_lines _ _ _ Hlines), (getReports_lines _ _ _ Hr).
  eexists _, _. split; [reflexivity|]. split.
  - assert (rows !! k = Some line) as Hk by exact Hline.
    by rewrite list_lookup_fmap, Hk.
  - rewrite list_fmap_insert. do 2 f_equal.
    rewrite updated_line_columns by apply Hstatus'.
    by apply status_record_of_updated_row.
Qed.

(** Reading before and after the report 1 is set to resolved. *)
Lemma getReports_after_putStatus_witness :
  ∃ reports report,
    getReports Sample.one_report = Ok200 reports
    ∧ reports !! 0 = Some report
    ∧ getReports (putStatus Sample.one_report (lit "1") (lit "resolved")).2
      = Ok200 (<[0 := <[lit "status" := VString (lit "resolved")]> report]>
                 reports).
Proof.
  apply (getReports_after_putStatus Sample.one_report (lit "1")
           (lit "resolved") 1).
  - eexists. split; [reflexivity|]. right. by vm_compute.
  - by vm_compute.
  - apply one_report_row.
  - apply one_report_alone.
  - apply storable_check. by vm_compute.
Defined.

(** *** A report is submitted and then updated *)

Lemma status_columns_split reportId form :
  Forall plain (form_values form) →
  split COMMA (join [COMMA] (columns reportId form)) = columns reportId form.
Proof.
  intros Hvalues. destruct (Forall_plain_split _ Hvalues) as [Hcommas _].
  apply split_join; [done|].
  constructor; [by apply toString_no_unit|].
  apply Forall_app. split; [done|]. repeat constructor. by_computing.
Qed.

Lemma read_back_updated reportId form status :
  forEach_header
    (split COMMA
       (lit "id,image_filename,latitude,longitude,location,description,status"))
    0 (<[6:=status]> (columns reportId form)) ∅
  = <[lit "status" := VString status]> (read_back reportId form).
Proof. done. Qed.

Lemma posted_file_well_formed store form :
  well_formed store → terminated store = true →
  Forall well_formed (form_values form) →
  well_formed
    (store ++ join [COMMA] (columns (length (readLines store)) form) ++ [LF]).
Proof.
  intros Hstore (pre & c & Hshape & _)%terminated_shape Hvalues.
  generalize (length (readLines store)). intros n.
  assert (store = (pre ++ [c]) ++ [LF]) as ->
    by (by rewrite Hshape, <- app_assoc).
  assert (well_formed (pre ++ [c])) as Hpre.
  { unfold well_formed in *.
    rewrite (toWellFormed_app_text _ [LF]) in Hstore by (by repeat constructor).
    by apply app_inv_tail in Hstore. }
  assert (well_formed (join [COMMA] (columns n form))) as Hrow.
  { apply well_formed_join; [done|].
    constructor; [apply toString_well_formed|].
    apply Forall_app. split; [done|]. by repeat constructor. }
  unfold well_formed in *. rewrite <- app_assoc.
  change ([LF] ++ ?t) with (LF :: t).
  rewrite toWellFormed_app_sep by done.
  rewrite (toWellFormed_app_text _ [LF]) by (by repeat constructor).
  by rewrite Hpre, Hrow.
Qed.

(** X16.  A report that is submitted can be updated under the id it was
    answered with.  On a file that starts with the header line, ends
    with a character that is not white space and one line feed, was read
    without a lone surrogate, and in which no row has the next id yet,
    after a form with an image and values without comma, line feed and
    lone surrogate is submitted, the update of the answered id to a
    status without comma, line feed and white space at its end answers
    200, and the records read then are the records read at the start
    followed by the record of the new report with that status as the
    file stores it (the status itself when it has no lone surrogate). *)
Theorem report_submitted_then_updated (store : jsstring)
    (form : report_form) (status : jsstring) :
  headed CSV_HEADER store → terminated store = true → well_formed store →
  accepted_with plain form → Forall well_formed (form_values form) →
  storable status →
  (∀ j line, 1 ≤ j → readLines store !! j = Some line →
     first_column line ≠ Some (toString (length (readLines store)))) →
  response_id (postReport store form).1
  = Some (VNumber (Int (length (readLines store))))
  ∧ status_code
      (putStatus (postReport store form).2
         (toString (length (readLines store))) status).1 = 200
  ∧ ∃ old,
      getReports store = Ok200 old
      ∧ getReports
          (putStatus (postReport store form).2
             (toString (length (readLines store))) status).2
        = Ok200
            (old
             ++ [<[lit "status" := VString (toWellFormed status)]>
                   (read_back (length (readLines store)) form)]).
Proof.
  intros Hheaded Hstore Hread_wf [Himage Hvalues] Hvalues_wf Hstatus Hfree.
  pose proof (toWellFormed_storable status Hstatus) as Hstatus'.
  pose proof (posted_file_well_formed store form Hread_wf Hstore Hvalues_wf)
    as Hposted_wf.
  destruct (Forall_plain_split _ Hvalues) as [_ Hlines].
  destruct (AppendFacts.status_postReport_stored store form Himage)
    as [Hposted Hid].
  split; [done|]. rewrite Hposted.
  set (n := length (readLines store)) in *.
  set (row := join [COMMA] (columns n form)) in *.
  assert (readLines (store ++ row ++ [LF]) = readLines store ++ [row])
    as Hread.
  { apply readLines_append; [done| |].
    - apply AppendFacts.status_columns_end_in_text.
    - by apply AppendFacts.status_columns_one_line. }
  pose proof (AppendFacts.readLines_length_pos store) as Hpos.
  destruct (putStatus_written (store ++ row ++ [LF]) (toString n) status n row)
    as (Hw & Hcode & Hr); try done.
  - rewrite Hread. by apply list_lookup_middle.
  - unfold row. by rewrite status_columns_split.
  - unfold row, columns. apply first_column_join; [|done].
    by apply toString_no_unit.
  - intros j line Hj Hne Hline. rewrite Hread in Hline.
    apply lookup_app_Some in Hline as [Hline|[Hge Hline]].
    + by apply (Hfree j line).
    + destruct (j - length (readLines store)) eqn:E; [|done].
      fold n in Hge, E. lia.
  - specialize (Hr Hstatus). split; [done|].
    destruct (ReachFacts.headed_lines store Hheaded) as [rows Hrows].
    rewrite Hw. rewrite Hread in Hr |- *.
    rewrite insert_app_r_alt in Hr |- * by (fold n; lia).
    fold n in Hr |- *. rewrite Nat.sub_diag in Hr |- *.
    change (<[0:=?x]> [row]) with [x] in Hr |- *.
    rewrite Hrows in Hr |- *. rewrite <- app_comm_cons in Hr |- *.
    rewrite (getReports_lines _ _ _ Hrows), (getReports_lines _ _ _ Hr).
    eexists. split; [reflexivity|].
    rewrite fmap_app, list_fmap_singleton. do 3 f_equal.
    unfold row. rewrite updated_line_columns by apply Hstatus'.
    rewrite status_columns_split by done. apply read_back_updated.
Qed.

(** The scenario of the specification: the flood report is submitted to
    the new file and set to resolved. *)
Lemma report_submitted_then_updated_witness :
  response_id (postReport CSV_HEADER Sample.flood_form).1
  = Some (VNumber (Int 1))
  ∧ status_code
      (putStatus (postReport CSV_HEADER Sample.flood_form).2 (lit "1")
         (lit "resolved")).1 = 200
  ∧ ∃ old,
      getReports CSV_HEADER = Ok200 old
      ∧ getReports
          (putStatus (postReport CSV_HEADER Sample.flood_form).2 (lit "1")
             (lit "resolved")).2
        = Ok200
            (old
             ++ [<[lit "status" := VString (lit "resolved")]>
                   (read_back 1 Sample.flood_form)]).
Proof.
  apply (report_submitted_then_updated CSV_HEADER Sample.flood_form
           (lit "resolved")).
  - exists []. split; [by rewrite app_nil_r | by left].
  - by vm_compute.
  - by vm_compute.
  - apply flood_form_plain.
  - repeat constructor; by vm_compute.
  - apply storable_check. by vm_compute.
  - intros j line Hj Hline. destruct j as [|j]; [lia|].
    vm_compute in Hline. done.
Defined.

End UpdateMore.

(** ** The keys and the types of the records that are read *)

Module RecordFacts.
Import JsFacts StoreFacts ReadFacts Traffic.

Local Opaque lit.

Lemma forEach_header_typed headers : ∀ index row (report : jsobject),
  typed_by_key report →
  typed_by_key (forEach_header headers index row report).
Proof.
  induction headers as [|header headers IH]; intros index row report Htyped;
    [done|].
  cbn [forEach_header]. apply IH. intros key v. unfold assign.
  destruct (str_eqb header (lit "__proto__")); [apply Htyped|].
  destruct (decide (header = key)) as [->|Hne].
  - rewrite lookup_insert_eq. intros [= <-]. eauto.
  - rewrite lookup_insert_ne by done. apply Htyped.
Qed.

Lemma numeric_header_is_a_key header :
  is_numeric_header header = true → header ≠ lit "__proto__".
Proof.
  unfold is_numeric_header.
  intros [[H|H]%orb_true_iff|H]%orb_true_iff;
    apply str_eqb_true in H; subst; by_computing.
Qed.

(** X17.  What a client receives for a record, whatever the row holds.
    Every key of it is a header name of the file, and [__proto__] is
    never one; [id], [latitude] and [longitude] are keys of it whenever
    they are header names, with [null] (for a row without such a cell,
    among others) or the number of a cell as value; every other key
    carries the text of a cell. *)
Theorem records_have_the_header_keys (store : jsstring) :
  ∃ reports,
    getReports store = Ok200 reports
    ∧ Forall
        (λ report : jsobject,
           (∀ key, is_Some (sent report !! key) →
              key ∈ header_names store ∧ key ≠ lit "__proto__")
           ∧ (∀ key, key ∈ header_names store →
                is_numeric_header key = true → is_Some (sent report !! key))
           ∧ ∀ key value,
               sent report !! key = Some value →
               if is_numeric_header key
               then value = JNull ∨ ∃ text, value = JNumber (Number (Some text))
               else ∃ text, value = JString text)
        reports.
Proof.
  eexists. split; [reflexivity|].
  apply Forall_fmap, Forall_true. intros line. cbn [compose].
  set (report := forEach_header _ 0 (split COMMA line) ∅).
  assert (dom report
          = list_to_set (filter (λ header, header ≠ lit "__proto__")
                           (header_names store))) as Hdom.
  { unfold report. rewrite forEach_header_dom, dom_empty_L.
    unfold header_names. by rewrite (left_id_L ∅ (∪)). }
  assert (typed_by_key report) as Htyped.
  { apply forEach_header_typed. intros k w. by rewrite lookup_empty. }
  split; [|split].
  - intros key [value Hvalue]. unfold sent in Hvalue.
    rewrite lookup_omap in Hvalue.
    destruct (report !! key) as [v|] eqn:Hv; [|done].
    assert (key ∈ dom report) as Hkey by (apply elem_of_dom; eauto).
    rewrite Hdom, elem_of_list_to_set, list_elem_of_filter in Hkey.
    by destruct Hkey.
  - intros key Hheader Hnumeric.
    assert (key ∈ dom report) as [v Hv]%elem_of_dom.
    { rewrite Hdom, elem_of_list_to_set, list_elem_of_filter.
      split; [by apply numeric_header_is_a_key | done]. }
    destruct (Htyped key v Hv) as [x ->].
    unfold sent. rewrite lookup_omap, Hv. unfold field_value.
    rewrite Hnumeric. by destruct x.
  - intros key value Hvalue. unfold sent in Hvalue.
    rewrite lookup_omap in Hvalue.
    destruct (report !! key) as [v|] eqn:Hv; [|done].
    destruct (Htyped key v Hv) as [x ->]. unfold field_value in Hvalue.
    destruct (is_numeric_header key); destruct x; simplify_eq/=; eauto.
Qed.

End RecordFacts.

(** ** The names of the uploaded files *)

Module UploadFacts.
Import JsFacts StoreFacts.

Lemma digits_inj d d' : digits d = digits d' → d = d'.
Proof.
  revert d'. induction d; destruct d'; intros H; try done;
    injection H as H; f_equal; by apply IHd.
Qed.

Lemma toString_inj n n' : toString n = toString n' → n = n'.
Proof.
  intros H%digits_inj.
  by rewrite <- (Unsigned.of_to n), <- (Unsigned.of_to n'), H.
Qed.

Lemma app_sep_inj (x : N) a a' b b' :
  x ∉ a → x ∉ a' → a ++ x :: b = a' ++ x :: b' → a = a' ∧ b = b'.
Proof.
  revert a'. induction a as [|c a IH]; intros a' Ha Ha' H.
  - destruct a' as [|c' a']; [by injection H|].
    injection H as -> _. by apply not_elem_of_cons in Ha' as [].
  - destruct a' as [|c' a'].
    + injection H as -> _. by apply not_elem_of_cons in Ha as [].
    + injection H as -> H.
      apply not_elem_of_cons in Ha as [_ Ha].
      apply not_elem_of_cons in Ha' as [_ Ha'].
      destruct (IH a' Ha Ha' H) as [-> ->]. done.
Qed.

(** X18.  The name under which an upload is stored holds a comma or a
    line feed exactly when the name the client gave does, so that it
    fits a row exactly when that name does; and two uploads are stored
    under the same name only when they have the same name and arrive in
    the same millisecond. *)
Theorem filename_fits_and_is_distinct :
  (∀ now originalname,
     plain (Upload.filename now originalname) ↔ plain originalname)
  ∧ (∀ now now' originalname originalname',
       Upload.filename now originalname = Upload.filename now' originalname'
       → now = now' ∧ originalname = originalname').
Proof.
  split.
  - intros now originalname. unfold Upload.filename, plain.
    rewrite !not_elem_of_app.
    assert (COMMA ∉ lit "-") by by_computing.
    assert (LF ∉ lit "-") by by_computing.
    pose proof (toString_no_unit COMMA now eq_refl).
    pose proof (toString_no_unit LF now eq_refl).
    tauto.
  - intros now now' originalname originalname'. unfold Upload.filename.
    change (lit "-") with [45%N]. cbn [app]. intros H.
    apply app_sep_inj in H as [H ->]; [|by apply toString_no_unit..].
    by apply toString_inj in H as ->.
Qed.

End UploadFacts.
